(** * TaskFlow: the task entity, the in-memory repository and the task service

    A shallow embedding of [models/Task.ts], of
    [repositories/InMemoryTaskRepository.ts] and of [services/TaskService.ts],
    followed by the properties of the task lifecycle and of the statistics.

    Conventions of the embedding.
    - A JavaScript string is the list of its UTF-16 code units, so [length] is
      the [.length] of the source and [trim] can follow ECMAScript exactly.
    - A field that may be [undefined] at run time is an [option]; the only
      values modelled are strings and [undefined], which is what a JSON body
      with string fields gives the controller.
    - [new Date()] and [uuidv4()] read the outside world: an [Env] gives the
      n-th clock reading (milliseconds) and the n-th identifier, the [World]
      counts how many were consumed.
    - [async] methods run to completion one after the other; a method is a
      function from the world to an outcome (a value or a thrown [TaskError])
      and the next world.
    - JavaScript numbers are binary64 floats: counters are kept as [nat] and
      converted where the source divides. *)

From Stdlib Require Import ZArith NArith List Lia.
From Stdlib Require Import Strings.String Strings.Ascii.
From Stdlib Require Import Floats.PrimFloat Floats.SpecFloat Floats.FloatOps.
From Stdlib Require Import Numbers.Cyclic.Int63.Uint63.
From stdpp Require Import base option list gmap.

Open Scope Z_scope.

(** ** JavaScript strings *)

(** A string is the sequence of its UTF-16 code units. *)
Abbreviation jsstring := (list N).

(** A literal of the source, code unit by code unit (ASCII literals only). *)
Definition js (s : string) : jsstring :=
  map N_of_ascii (list_ascii_of_string s).

(** ECMAScript [WhiteSpace] and [LineTerminator] code points, the ones
    [String.prototype.trim] strips: TAB, LF, VT, FF, CR, SP, NBSP, U+1680,
    U+2000..U+200A, U+2028, U+2029, U+202F, U+205F, U+3000 and U+FEFF. *)
Definition isWhiteSpace (c : N) : bool :=
  ((9 <=? c) && (c <=? 13) || (c =? 32) || (c =? 160) || (c =? 5760)
   || (8192 <=? c) && (c <=? 8202) || (c =? 8232) || (c =? 8233)
   || (c =? 8239) || (c =? 8287) || (c =? 12288) || (c =? 65279))%N.

Fixpoint trimStart (s : jsstring) : jsstring :=
  match s with
  | c :: s' => if isWhiteSpace c then trimStart s' else s
  | [] => []
  end.

Definition trimEnd (s : jsstring) : jsstring := rev (trimStart (rev s)).

(** [s.trim()] *)
Definition trim (s : jsstring) : jsstring := trimEnd (trimStart s).

(** [s.trim().length === 0] *)
Definition isBlank (s : jsstring) : bool := (length (trim s) =? 0)%nat.

(** Truthiness of a value that is a string or [undefined]: only [undefined]
    and the empty string are falsy. *)
Definition truthy (v : option jsstring) : bool :=
  match v with
  | Some (_ :: _) => true
  | _ => false
  end.

(** ** models/Task.ts *)

(** [enum TaskStatus]: a string enum, at run time three strings. *)
Module TaskStatus.
Definition PENDING : jsstring := Eval cbv in js "pending".
Definition IN_PROGRESS : jsstring := Eval cbv in js "in_progress".
Definition DONE : jsstring := Eval cbv in js "done".
(** [Object.values(TaskStatus)] *)
Definition values : list jsstring := [PENDING; IN_PROGRESS; DONE].
End TaskStatus.

(** [interface CreateTaskDTO]; [title] and [description] are declared
    mandatory, but the service checks that they are there, so they can be
    [undefined] when the object arrives. *)
Record CreateTaskDTO := mkCreate {
  create_title : option jsstring;
  create_description : option jsstring;
  create_status : option jsstring
}.

(** [interface UpdateTaskDTO] *)
Record UpdateTaskDTO := mkUpdate {
  update_title : option jsstring;
  update_description : option jsstring;
  update_status : option jsstring
}.

(** [interface ITask], the plain projection [toJSON] returns. Dates are
    their time value in milliseconds. *)
Record ITask := mkITask {
  json_id : jsstring;
  json_title : option jsstring;
  json_description : option jsstring;
  json_status : jsstring;
  json_createdAt : Z;
  json_updatedAt : Z
}.

(** ** The outside world and the method monad *)

(** [class TaskError]: the [code] and the [statusCode] (the message is not
    modelled). *)
Inductive ErrorCode :=
| INVALID_TITLE | TITLE_TOO_LONG | INVALID_DESCRIPTION | DESCRIPTION_TOO_LONG
| INVALID_STATUS | INVALID_ID | TASK_NOT_FOUND.

Record TaskError := mkTaskError { code : ErrorCode; statusCode : Z }.

(** What the process reads from outside: the n-th result of [uuidv4()] and
    the n-th reading of the clock by [new Date()], in milliseconds. *)
Record Env := mkEnv {
  uuidv4 : nat -> jsstring;
  clock : nat -> Z
}.

(** The state a method runs in: a store (the repository's [Map]) and the
    number of identifiers and clock readings consumed so far. *)
Record World (Store : Type) := mkWorld {
  store : Store;
  uuid_calls : nat;
  clock_reads : nat
}.
Arguments mkWorld {Store} _ _ _.
Arguments store {Store} _.
Arguments uuid_calls {Store} _.
Arguments clock_reads {Store} _.

Inductive Outcome (A : Type) :=
| Return (a : A)
| Throw (e : TaskError).
Arguments Return {A} _.
Arguments Throw {A} _.

(** A method: from the world to what it returns or throws, and the world it
    leaves. An exception keeps the changes made before it was thrown. *)
Definition Js (Store A : Type) : Type := World Store -> Outcome A * World Store.

#[global] Instance Js_ret {Store} : MRet (Js Store) :=
  fun A a w => (Return a, w).

#[global] Instance Js_bind {Store} : MBind (Js Store) :=
  fun A B k m w =>
    match m w with
    | (Return a, w') => k a w'
    | (Throw e, w') => (Throw e, w')
    end.

Definition throw {Store A} (e : TaskError) : Js Store A :=
  fun w => (Throw e, w).

Definition gets {Store A} (f : Store -> A) : Js Store A :=
  fun w => (Return (f (store w)), w).

Definition modify {Store} (f : Store -> Store) : Js Store unit :=
  fun w => (Return tt, mkWorld (f (store w)) (uuid_calls w) (clock_reads w)).

Section Outside.
Context (E : Env) {Store : Type}.

(** [uuidv4()] *)
Definition new_uuid : Js Store jsstring :=
  fun w => (Return (uuidv4 E (uuid_calls w)),
            mkWorld (store w) (S (uuid_calls w)) (clock_reads w)).

(** [new Date()] *)
Definition new_Date : Js Store Z :=
  fun w => (Return (clock E (clock_reads w)),
            mkWorld (store w) (uuid_calls w) (S (clock_reads w))).
End Outside.

(** ** class Task *)

Module Task.

Record t := mk {
  id : jsstring;
  title : option jsstring;
  description : option jsstring;
  status : jsstring;
  createdAt : Z;
  updatedAt : Z
}.

(** [v || d] for a string or [undefined] [v] *)
Definition orElse (v : option jsstring) (d : jsstring) : jsstring :=
  match v with
  | Some (c :: s) => c :: s
  | _ => d
  end.

(** [v !== undefined ? v : old] for a field that holds a string *)
Definition assigned (v : option jsstring) (old : jsstring) : jsstring :=
  match v with
  | Some s => s
  | None => old
  end.

(** the same for a field that may itself hold [undefined] *)
Definition assignedOpt (v old : option jsstring) : option jsstring :=
  match v with
  | Some s => Some s
  | None => old
  end.

Section Methods.
Context (E : Env) {Store : Type}.

(** [constructor(data)] *)
Definition new (data : CreateTaskDTO) : Js Store t :=
  i ← new_uuid E;
  c ← new_Date E;
  u ← new_Date E;
  mret {| id := i;
          title := create_title data;
          description := create_description data;
          status := orElse (create_status data) TaskStatus.PENDING;
          createdAt := c;
          updatedAt := u |}.

(** [update(data)] *)
Definition update (data : UpdateTaskDTO) (this : t) : Js Store t :=
  u ← new_Date E;
  mret {| id := id this;
          title := assignedOpt (update_title data) (title this);
          description := assignedOpt (update_description data) (description this);
          status := assigned (update_status data) (status this);
          createdAt := createdAt this;
          updatedAt := u |}.

Definition setStatus (s : jsstring) (this : t) : Js Store t :=
  u ← new_Date E;
  mret {| id := id this; title := title this;
          description := description this; status := s;
          createdAt := createdAt this; updatedAt := u |}.

(** [markAsDone()], [markAsInProgress()], [markAsPending()] *)
Definition markAsDone : t -> Js Store t := setStatus TaskStatus.DONE.
Definition markAsInProgress : t -> Js Store t := setStatus TaskStatus.IN_PROGRESS.
Definition markAsPending : t -> Js Store t := setStatus TaskStatus.PENDING.

(** [static fromJSON(data)]: builds a task with the constructor, then
    overwrites [id], [createdAt] and [updatedAt]; [new Date(d)] of a
    date has the time value of [d]. *)
Definition fromJSON (data : ITask) : Js Store t :=
  task ← new {| create_title := json_title data;
                create_description := json_description data;
                create_status := Some (json_status data) |};
  mret {| id := json_id data;
          title := title task;
          description := description task;
          status := status task;
          createdAt := json_createdAt data;
          updatedAt := json_updatedAt data |}.
End Methods.

Definition isDone (this : t) : bool := bool_decide (status this = TaskStatus.DONE).
Definition isInProgress (this : t) : bool :=
  bool_decide (status this = TaskStatus.IN_PROGRESS).
Definition isPending (this : t) : bool :=
  bool_decide (status this = TaskStatus.PENDING).

(** [toJSON()] *)
Definition toJSON (this : t) : ITask :=
  {| json_id := id this;
     json_title := title this;
     json_description := description this;
     json_status := status this;
     json_createdAt := createdAt this;
     json_updatedAt := updatedAt this |}.

End Task.

(** ** class InMemoryTaskRepository *)

(** The repository's [Map<string, Task>]. Nothing proved below depends on
    the iteration order of the map, so it is a finite map; [findAll] lists
    its values in the order of the keys, not of insertion. *)
Abbreviation TaskMap := (gmap jsstring Task.t).

Module InMemoryTaskRepository.

(** [constructor()]: [new Map()] *)
Definition empty : TaskMap := ∅.

Section Methods.
Context (E : Env).

Definition create (data : CreateTaskDTO) : Js TaskMap Task.t :=
  task ← Task.new E data;
  _ ← modify (fun tasks : TaskMap => <[Task.id task := task]> tasks);
  mret task.

(** [Array.from(this.tasks.values())] *)
Definition findAll : Js TaskMap (list Task.t) :=
  gets (fun tasks : TaskMap => (map_to_list tasks).*2).

(** [this.tasks.get(id) || null]: a task object is always truthy *)
Definition findById (id : jsstring) : Js TaskMap (option Task.t) :=
  gets (fun tasks : TaskMap => tasks !! id).

Definition findByStatus (status : jsstring) : Js TaskMap (list Task.t) :=
  allTasks ← findAll;
  mret (filter (fun task => Task.status task = status) allTasks).

Definition update (id : jsstring) (data : UpdateTaskDTO)
  : Js TaskMap (option Task.t) :=
  found ← findById id;
  match found with
  | None => mret None
  | Some task =>
      task' ← Task.update E data task;
      _ ← modify (fun tasks : TaskMap => <[id := task']> tasks);
      mret (Some task')
  end.

Definition delete (id : jsstring) : Js TaskMap bool :=
  exists_ ← gets (fun tasks : TaskMap => bool_decide (is_Some (tasks !! id)));
  _ ← (if exists_ : bool
       then modify (fun tasks : TaskMap => base.delete id tasks)
       else mret tt);
  mret exists_.

(** [this.tasks.size] *)
Definition count : Js TaskMap nat :=
  gets (fun tasks : TaskMap => size tasks).

Definition countByStatus (status : jsstring) : Js TaskMap nat :=
  tasks ← findByStatus status;
  mret (length tasks).

Definition clear : Js TaskMap unit :=
  modify (fun _ : TaskMap => ∅).

Definition exists_ (id : jsstring) : Js TaskMap bool :=
  gets (fun tasks : TaskMap => bool_decide (is_Some (tasks !! id))).

Definition findByDateRange (startDate endDate : Z) : Js TaskMap (list Task.t) :=
  allTasks ← findAll;
  mret (filter (fun task => startDate <= Task.createdAt task
                            ∧ Task.createdAt task <= endDate) allTasks).

End Methods.
End InMemoryTaskRepository.

(** ** JavaScript numbers *)

(** An integer as a Number; exact below 2^53, more than a [Map] can hold. *)
Definition Number_of_Z (z : Z) : float :=
  if z <? 0 then (- of_uint63 (Uint63.of_Z (- z)))%float
  else of_uint63 (Uint63.of_Z z).

Definition Number_of_nat (n : nat) : float := Number_of_Z (Z.of_nat n).

(** [Math.round(x)]: the integer closest to [x], a tie going to the larger
    one, that is [floor(x + 1/2)] computed exactly on the binary expansion
    [±m·2^e] of [x]; [-0] for [-0.5 <= x < 0]; zeros, infinities and NaN
    are returned as they are. *)
Definition Math_round (x : float) : float :=
  match Prim2SF x with
  | S754_finite s m e =>
      if 0 <=? e then x
      else
        let v := if s then Z.neg m else Z.pos m in
        let n := (2 * v + 2 ^ (- e)) `div` 2 ^ (1 - e) in
        if (n =? 0) && s then neg_zero else Number_of_Z n
  | _ => x
  end.

(** ** class TaskService

    The service holds an [ITaskRepository]; the repository here is the
    in-memory one, the only implementation there is. *)

Module TaskService.

(** [interface TaskStatistics] *)
Record TaskStatistics := mkStats {
  total : nat;
  pending : nat;
  inProgress : nat;
  done : nat;
  completionRate : float
}.

(** [v !== undefined && v.trim().length === 0]; where the source writes
    [!v || v.trim().length === 0] the left operand covers [undefined] *)
Definition trimmedLength0 (v : option jsstring) : bool :=
  match v with
  | Some s => isBlank s
  | None => false
  end.

(** [v.length], which the source evaluates on strings only *)
Definition strLength (v : option jsstring) : nat :=
  match v with
  | Some s => length s
  | None => 0
  end.

(** [Object.values(TaskStatus).includes(status)] *)
Definition isValidStatus (status : jsstring) : bool :=
  bool_decide (status ∈ TaskStatus.values).

(** [data.status && !this.isValidStatus(data.status)] *)
Definition badStatus (v : option jsstring) : bool :=
  match v with
  | Some s => truthy (Some s) && negb (isValidStatus s)
  | None => false
  end.

(** [if (cond) throw new TaskError(_, code, statusCode)] *)
Definition throwIf (cond : bool) (c : ErrorCode) (sc : Z) : Js TaskMap unit :=
  if cond then throw (mkTaskError c sc) else mret tt.

Definition validateCreateData (data : CreateTaskDTO) : Js TaskMap unit :=
  _ ← throwIf (negb (truthy (create_title data))
               || trimmedLength0 (create_title data)) INVALID_TITLE 400;
  _ ← throwIf (200 <? strLength (create_title data))%nat TITLE_TOO_LONG 400;
  _ ← throwIf (negb (truthy (create_description data))
               || trimmedLength0 (create_description data)) INVALID_DESCRIPTION 400;
  _ ← throwIf (2000 <? strLength (create_description data))%nat
        DESCRIPTION_TOO_LONG 400;
  throwIf (badStatus (create_status data)) INVALID_STATUS 400.

Definition validateUpdateData (data : UpdateTaskDTO) : Js TaskMap unit :=
  _ ← throwIf (trimmedLength0 (update_title data)) INVALID_TITLE 400;
  _ ← throwIf (truthy (update_title data)
               && (200 <? strLength (update_title data))%nat) TITLE_TOO_LONG 400;
  _ ← throwIf (trimmedLength0 (update_description data)) INVALID_DESCRIPTION 400;
  _ ← throwIf (truthy (update_description data)
               && (2000 <? strLength (update_description data))%nat)
        DESCRIPTION_TOO_LONG 400;
  throwIf (badStatus (update_status data)) INVALID_STATUS 400.

Definition validateId (id : jsstring) : Js TaskMap unit :=
  throwIf (negb (truthy (Some id)) || isBlank id) INVALID_ID 400.

Definition validateStatus (status : jsstring) : Js TaskMap unit :=
  throwIf (negb (isValidStatus status)) INVALID_STATUS 400.

Section Methods.
Context (E : Env).

Definition createTask (data : CreateTaskDTO) : Js TaskMap Task.t :=
  _ ← validateCreateData data;
  task ← InMemoryTaskRepository.create E data;
  mret task.

Definition getAllTasks : Js TaskMap (list Task.t) :=
  InMemoryTaskRepository.findAll.

Definition getTaskById (id : jsstring) : Js TaskMap Task.t :=
  _ ← validateId id;
  found ← InMemoryTaskRepository.findById id;
  match found with
  | None => throw (mkTaskError TASK_NOT_FOUND 404)
  | Some task => mret task
  end.

Definition getTasksByStatus (status : jsstring) : Js TaskMap (list Task.t) :=
  _ ← validateStatus status;
  InMemoryTaskRepository.findByStatus status.

Definition updateTask (id : jsstring) (data : UpdateTaskDTO) : Js TaskMap Task.t :=
  _ ← validateId id;
  _ ← validateUpdateData data;
  updated ← InMemoryTaskRepository.update E id data;
  match updated with
  | None => throw (mkTaskError TASK_NOT_FOUND 404)
  | Some task => mret task
  end.

Definition deleteTask (id : jsstring) : Js TaskMap unit :=
  _ ← validateId id;
  deleted ← InMemoryTaskRepository.delete id;
  if deleted : bool then mret tt
  else throw (mkTaskError TASK_NOT_FOUND 404).

Definition markTaskAsDone (id : jsstring) : Js TaskMap Task.t :=
  updateTask id (mkUpdate None None (Some TaskStatus.DONE)).

Definition markTaskAsInProgress (id : jsstring) : Js TaskMap Task.t :=
  updateTask id (mkUpdate None None (Some TaskStatus.IN_PROGRESS)).

Definition markTaskAsPending (id : jsstring) : Js TaskMap Task.t :=
  updateTask id (mkUpdate None None (Some TaskStatus.PENDING)).

End Methods.

(** [Math.round(completionRate * 100) / 100] *)
Definition round2 (completionRate : float) : float :=
  (Math_round (completionRate * 100) / 100)%float.

Definition getStatistics : Js TaskMap TaskStatistics :=
  total ← InMemoryTaskRepository.count;
  pending ← InMemoryTaskRepository.countByStatus TaskStatus.PENDING;
  inProgress ← InMemoryTaskRepository.countByStatus TaskStatus.IN_PROGRESS;
  done ← InMemoryTaskRepository.countByStatus TaskStatus.DONE;
  let completionRate :=
    if (0 <? total)%nat
    then (Number_of_nat done / Number_of_nat total * 100)%float
    else 0%float in
  mret {| total := total;
          pending := pending;
          inProgress := inProgress;
          done := done;
          completionRate := round2 completionRate |}.

End TaskService.

(** ** Runs of the service *)

(** One call of a public [TaskService] method. *)
Inductive Call :=
| CreateTask (data : CreateTaskDTO)
| GetAllTasks
| GetTaskById (id : jsstring)
| GetTasksByStatus (status : jsstring)
| UpdateTask (id : jsstring) (data : UpdateTaskDTO)
| DeleteTask (id : jsstring)
| MarkTaskAsDone (id : jsstring)
| MarkTaskAsInProgress (id : jsstring)
| MarkTaskAsPending (id : jsstring)
| GetStatistics.

(** The world a call leaves, whether it returned or threw. *)
Definition after (E : Env) (c : Call) (w : World TaskMap) : World TaskMap :=
  match c with
  | CreateTask data => snd (TaskService.createTask E data w)
  | GetAllTasks => snd (TaskService.getAllTasks w)
  | GetTaskById id => snd (TaskService.getTaskById id w)
  | GetTasksByStatus status => snd (TaskService.getTasksByStatus status w)
  | UpdateTask id data => snd (TaskService.updateTask E id data w)
  | DeleteTask id => snd (TaskService.deleteTask id w)
  | MarkTaskAsDone id => snd (TaskService.markTaskAsDone E id w)
  | MarkTaskAsInProgress id => snd (TaskService.markTaskAsInProgress E id w)
  | MarkTaskAsPending id => snd (TaskService.markTaskAsPending E id w)
  | GetStatistics => snd (TaskService.getStatistics w)
  end.

(** A service over a new repository, before any call. *)
Definition newWorld : World TaskMap :=
  mkWorld InMemoryTaskRepository.empty 0 0.

Definition runCalls (E : Env) (cs : list Call) : World TaskMap :=
  fold_left (fun w c => after E c w) cs newWorld.

(** The worlds a service over a new repository can be in. *)
Inductive reachable (E : Env) : World TaskMap -> Prop :=
| reachable_new : reachable E newWorld
| reachable_call c w : reachable E w -> reachable E (after E c w).



(** [uuidv4()] returns 36 characters, none of them white space; what the
    service needs of it is that [validateId] accepts it. *)
Definition uuidsNotBlank (E : Env) : Prop :=
  forall n : nat, isBlank (uuidv4 E n) = false.

(** ** Sample data *)

(** Identifiers [task-000], [task-001], ... (three decimal digits) and a
    clock that advances one millisecond per reading. *)
Definition digit (n : nat) : N := N.of_nat (48 + n `mod` 10).

Definition sampleId (n : nat) : jsstring :=
  js "task-" ++ [digit (n `div` 100); digit (n `div` 10); digit n].

Definition sampleEnv : Env :=
  mkEnv sampleId (fun n => 1700000000000 + Z.of_nat n).


Definition sampleCreate (status : option jsstring) : CreateTaskDTO :=
  mkCreate (Some (js "T")) (Some (js "D")) status.

(** The world after one [createTask({title: "T", description: "D"})], and
    the task it stores. *)
Definition oneTask (E : Env) : World TaskMap :=
  after E (CreateTask (sampleCreate None)) newWorld.

Definition firstTask (E : Env) : Task.t :=
  Task.mk (uuidv4 E 0) (Some (js "T")) (Some (js "D")) TaskStatus.PENDING
    (clock E 0) (clock E 1).

(** [n] creations, the first [k] of them with status [done], the others
    with no status. *)
Definition sampleRun (k n : nat) : list Call :=
  map (fun i => CreateTask
                  (sampleCreate (if (i <? k)%nat then Some TaskStatus.DONE else None)))
      (seq 0 n).

(** The four tasks of the service's statistics test. *)
Definition fourTasks : list Call :=
  [CreateTask (sampleCreate None); CreateTask (sampleCreate None);
   CreateTask (sampleCreate (Some TaskStatus.IN_PROGRESS));
   CreateTask (sampleCreate (Some TaskStatus.DONE))].

(** ** The rules of the specification, in its words *)

(** "missing or its trimmed length is 0" *)
Definition missingOrBlank (v : option jsstring) : bool :=
  match v with
  | Some s => isBlank s
  | None => true
  end.

(** "status is one of the three enumerated values" *)
Definition enumerated (s : jsstring) : Prop :=
  s = TaskStatus.PENDING \/ s = TaskStatus.IN_PROGRESS \/ s = TaskStatus.DONE.

(** A valid creation input: title and description present, not blank, of at
    most 200 and 2000 characters; status absent or enumerated. *)
Definition validCreateInput (data : CreateTaskDTO) : Prop :=
  missingOrBlank (create_title data) = false
  /\ (TaskService.strLength (create_title data) <= 200)%nat
  /\ missingOrBlank (create_description data) = false
  /\ (TaskService.strLength (create_description data) <= 2000)%nat
  /\ match create_status data with
     | Some s => enumerated s
     | None => True
     end.

(** Completion rate of the specification: [done/total*100] rounded to two
    decimals, half up, on exact numbers: [floor(10000*done/total + 1/2)]
    hundredths, as the Number closest to that decimal. *)
Definition specHundredths (done total : nat) : Z :=
  (2 * 10000 * Z.of_nat done + Z.of_nat total) `div` (2 * Z.of_nat total).

Definition specCompletionRate (done total : nat) : float :=
  if (0 <? total)%nat
  then (Number_of_Z (specHundredths done total) / 100)%float
  else 0%float.

(** The first creation rule that fails, in the order the rules are listed. *)
Definition createVerdict (data : CreateTaskDTO) : option ErrorCode :=
  if missingOrBlank (create_title data) then Some INVALID_TITLE
  else if (200 <? TaskService.strLength (create_title data))%nat
  then Some TITLE_TOO_LONG
  else if missingOrBlank (create_description data) then Some INVALID_DESCRIPTION
  else if (2000 <? TaskService.strLength (create_description data))%nat
  then Some DESCRIPTION_TOO_LONG
  else if TaskService.badStatus (create_status data) then Some INVALID_STATUS
  else None.

(** The completion rate the service computes from the two counters. *)
Definition codeCompletionRate (done total : nat) : float :=
  TaskService.round2
    (if (0 <? total)%nat
     then (Number_of_nat done / Number_of_nat total * 100)%float
     else 0%float).

(** The pairs [(done, total)] with [done <= total] and [1 <= total <= n]. *)
Definition countPairs (n : nat) : list (nat * nat) :=
  flat_map (fun total => map (fun done => (done, S total)) (seq 0 (S (S total))))
           (seq 0 n).

(** The first update rule that fails, in the order [validateUpdateData]
    checks them. *)
Definition updateVerdict (data : UpdateTaskDTO) : option ErrorCode :=
  if TaskService.trimmedLength0 (update_title data) then Some INVALID_TITLE
  else if truthy (update_title data)
          && (200 <? TaskService.strLength (update_title data))%nat
  then Some TITLE_TOO_LONG
  else if TaskService.trimmedLength0 (update_description data)
  then Some INVALID_DESCRIPTION
  else if truthy (update_description data)
          && (2000 <? TaskService.strLength (update_description data))%nat
  then Some DESCRIPTION_TOO_LONG
  else if TaskService.badStatus (update_status data) then Some INVALID_STATUS
  else None.

(** What [Task.update] makes of a task when the clock reads [now]. *)
Definition updated (data : UpdateTaskDTO) (now : Z) (task : Task.t) : Task.t :=
  Task.mk (Task.id task)
    (Task.assignedOpt (update_title data) (Task.title task))
    (Task.assignedOpt (update_description data) (Task.description task))
    (Task.assigned (update_status data) (Task.status task))
    (Task.createdAt task) now.

(** Every stored task has an enumerated status. *)
Definition allEnumerated (w : World TaskMap) : Prop :=
  forall id task, store w !! id = Some task -> enumerated (Task.status task).

(** A call that does not update a status to the empty string. Among the
    values of the embedding (strings and [undefined]) the empty string is
    the only falsy one that is not [undefined]. *)
Definition noEmptyStatus (c : Call) : Prop :=
  match c with
  | UpdateTask _ data => update_status data <> Some []
  | _ => True
  end.

(** Every stored task sits under its own id, which [uuidv4()] produced, and
    carries two past readings of the clock, [createdAt] the earlier one. *)
Definition wellFormed (E : Env) (w : World TaskMap) : Prop :=
  forall id task, store w !! id = Some task ->
    Task.id task = id
    /\ (exists n, id = uuidv4 E n)
    /\ exists i j : nat,
         (j <= i < clock_reads w)%nat
         /\ Task.createdAt task = clock E j
         /\ Task.updatedAt task = clock E i.

(** [failsWith r c]: the outcome is a [TaskError] with code [c]. *)
Definition failsWith {A} (r : Outcome A) (c : ErrorCode) : Prop :=
  exists sc, r = Throw (mkTaskError c sc).

(** ** utils/index.ts *)

Module Utils.

(** The character classes of the pattern of [isValidUUID]. The [i] flag makes
    the letters match in both cases; no code unit outside ASCII matches an
    ASCII letter without the [u] flag. *)
Inductive CharClass :=
| Hex        (* [0-9a-f] *)
| Hyphen     (* - *)
| Version    (* [1-5] *)
| Variant.   (* [89ab] *)

Definition isDigit (c : N) : bool := ((48 <=? c) && (c <=? 57))%N.

Definition isHex (c : N) : bool :=
  (isDigit c || (97 <=? c) && (c <=? 102) || (65 <=? c) && (c <=? 70))%N.

Definition inClass (k : CharClass) (c : N) : bool :=
  match k with
  | Hex => isHex c
  | Hyphen => (c =? 45)%N
  | Version => ((49 <=? c) && (c <=? 53))%N
  | Variant => ((c =? 56) || (c =? 57) || (c =? 97) || (c =? 98)
                || (c =? 65) || (c =? 66))%N
  end.

(** [^[0-9a-f]{8}-[0-9a-f]{4}-[1-5][0-9a-f]{3}-[89ab][0-9a-f]{3}-[0-9a-f]{12}$] *)
Definition uuidRegex : list CharClass :=
  repeat Hex 8 ++ [Hyphen] ++ repeat Hex 4 ++ [Hyphen]
  ++ [Version] ++ repeat Hex 3 ++ [Hyphen]
  ++ [Variant] ++ repeat Hex 3 ++ [Hyphen] ++ repeat Hex 12.

(** [regex.test(s)] for an anchored sequence of single-character classes *)
Fixpoint test (regex : list CharClass) (s : jsstring) : bool :=
  match regex, s with
  | [], [] => true
  | k :: regex', c :: s' => inClass k c && test regex' s'
  | _, _ => false
  end.

Definition isValidUUID (id : jsstring) : bool := test uuidRegex id.

(** [s.replace(/\s+/g, ' ')]: every maximal run of white space becomes one
    space; [inRun] says that the code unit before was white space. The class
    [\s] is the white space of [trim]. *)
Fixpoint replaceRuns (inRun : bool) (s : jsstring) : jsstring :=
  match s with
  | [] => []
  | c :: s' =>
      if isWhiteSpace c
      then (if inRun then replaceRuns true s' else 32%N :: replaceRuns true s')
      else c :: replaceRuns false s'
  end.

Definition sanitizeString (str : jsstring) : jsstring :=
  replaceRuns false (trim str).

End Utils.

(** ** More vocabulary for the properties *)

(** The error of an outcome, if it is one. *)
Definition errorOf {A} (r : Outcome A) : option TaskError :=
  match r with
  | Throw e => Some e
  | Return _ => None
  end.

(** What a call of the service throws, if it throws. *)
Definition thrown (E : Env) (c : Call) (w : World TaskMap) : option TaskError :=
  match c with
  | CreateTask data => errorOf (fst (TaskService.createTask E data w))
  | GetAllTasks => errorOf (fst (TaskService.getAllTasks w))
  | GetTaskById id => errorOf (fst (TaskService.getTaskById id w))
  | GetTasksByStatus status => errorOf (fst (TaskService.getTasksByStatus status w))
  | UpdateTask id data => errorOf (fst (TaskService.updateTask E id data w))
  | DeleteTask id => errorOf (fst (TaskService.deleteTask id w))
  | MarkTaskAsDone id => errorOf (fst (TaskService.markTaskAsDone E id w))
  | MarkTaskAsInProgress id => errorOf (fst (TaskService.markTaskAsInProgress E id w))
  | MarkTaskAsPending id => errorOf (fst (TaskService.markTaskAsPending E id w))
  | GetStatistics => errorOf (fst (TaskService.getStatistics w))
  end.

(** The first code unit, if there is one, is not white space. *)
Definition startsTight (s : jsstring) : Prop :=
  match s with
  | c :: _ => isWhiteSpace c = false
  | [] => True
  end.

(** Every white-space code unit is a space (U+0020) and does not follow
    another white-space code unit; [inRun] stands for the code unit before
    the string. *)
Fixpoint singleSpaced (inRun : bool) (s : jsstring) : bool :=
  match s with
  | [] => true
  | c :: s' =>
      if isWhiteSpace c
      then negb inRun && (c =? 32)%N && singleSpaced true s'
      else singleSpaced false s'
  end.

(** Identifiers that never repeat: [task-] followed by [n] letters i. *)
Definition tallyId (n : nat) : jsstring := js "task-" ++ repeat 105%N n.

Definition tallyEnv : Env :=
  mkEnv tallyId (fun n => 1700000000000 + Z.of_nat n).

(** The status given to an [updateTask] is [undefined] or a non-empty
    string. Every other call qualifies: [createTask] may be given any
    status, the other calls take none from the caller. *)
Definition statusAbsentOrNonEmpty (c : Call) : Prop :=
  match c with
  | UpdateTask _ data =>
      update_status data = None
      \/ exists c s, update_status data = Some (c :: s)
  | _ => True
  end.

(** The id a call is about, if it is about one task. *)
Definition target (c : Call) : option jsstring :=
  match c with
  | GetTaskById id | UpdateTask id _ | DeleteTask id
  | MarkTaskAsDone id | MarkTaskAsInProgress id | MarkTaskAsPending id => Some id
  | CreateTask _ | GetAllTasks | GetTasksByStatus _ | GetStatistics => None
  end.

(** A text field that is there, not blank, and of at most [limit] code
    units. *)
Definition textWithin (limit : nat) (v : option jsstring) : Prop :=
  exists s, v = Some s /\ isBlank s = false /\ (length s <= limit)%nat.

(** Every stored task has a title and a description within the limits. *)
Definition allTextsValid (w : World TaskMap) : Prop :=
  forall id task, store w !! id = Some task ->
    textWithin 200 (Task.title task) /\ textWithin 2000 (Task.description task).

(** [uuidv4()] never returns the same identifier twice. *)
Definition uuidsDistinct (E : Env) : Prop :=
  forall i j : nat, uuidv4 E i = uuidv4 E j -> i = j.

(** Every key of the store is an identifier already drawn. *)
Definition keysDrawn (E : Env) (w : World TaskMap) : Prop :=
  forall id task, store w !! id = Some task ->
    exists n, (n < uuid_calls w)%nat /\ id = uuidv4 E n.

(** The partial that has the effect of [d1] followed by [d2]. *)
Definition mergeUpdate (d1 d2 : UpdateTaskDTO) : UpdateTaskDTO :=
  mkUpdate (Task.assignedOpt (update_title d2) (update_title d1))
           (Task.assignedOpt (update_description d2) (update_description d1))
           (Task.assignedOpt (update_status d2) (update_status d1)).

(** The stored tasks, as [findAll] lists them. *)
Definition storedTasks (w : World TaskMap) : list Task.t :=
  (map_to_list (store w)).*2.

(** * Properties *)

(** ** The method monad *)

Ltac js_unfold :=
  unfold mbind, mret, Js_bind, Js_ret, throw, gets, modify, new_uuid, new_Date.

Ltac js_run := js_unfold; cbn [fst snd store uuid_calls clock_reads].

(** ** Strings *)

Lemma trimStart_nil_iff s : trimStart s = [] <-> forallb isWhiteSpace s = true.
Proof.
  induction s as [|c s IH]; cbn; [tauto|].
  destruct (isWhiteSpace c); cbn; [exact IH|]. split; discriminate.
Qed.

(** The trimmed length is 0 exactly when every code unit is white space. *)
Lemma isBlank_forallb s : isBlank s = forallb isWhiteSpace s.
Proof.
  unfold isBlank, trim, trimEnd. rewrite length_rev.
  destruct (forallb isWhiteSpace s) eqn:Hall.
  - apply trimStart_nil_iff in Hall. rewrite Hall. reflexivity.
  - destruct (trimStart s) as [|c r] eqn:Hs.
    + apply trimStart_nil_iff in Hs. congruence.
    + assert (Hc : isWhiteSpace c = false).
      { clear Hall. induction s as [|d s IH]; cbn in Hs; [discriminate|].
        destruct (isWhiteSpace d) eqn:Hd; [auto|]. congruence. }
      destruct (trimStart (rev (c :: r))) as [|x y] eqn:Hr; [|reflexivity].
      apply trimStart_nil_iff in Hr. rewrite forallb_forall in Hr.
      rewrite (Hr c) in Hc; [discriminate|].
      apply in_rev. rewrite rev_involutive. left. reflexivity.
Qed.

Lemma create_check v :
  negb (truthy v) || TaskService.trimmedLength0 v = missingOrBlank v.
Proof. destruct v as [[|c s]|]; reflexivity. Qed.

(** ** Validation *)

Lemma throwIf_false c sc w : TaskService.throwIf false c sc w = (Return tt, w).
Proof. reflexivity. Qed.

(** [validateCreateData] throws the first rule that fails and changes
    nothing. *)
Lemma validateCreateData_verdict data w :
  TaskService.validateCreateData data w =
  (match createVerdict data with
   | Some c => Throw (mkTaskError c 400)
   | None => Return tt
   end, w).
Proof.
  unfold TaskService.validateCreateData, createVerdict.
  rewrite !create_check. js_run.
  destruct (missingOrBlank (create_title data)); [reflexivity|].
  rewrite throwIf_false.
  destruct (200 <? _)%nat; [reflexivity|]. rewrite throwIf_false.
  destruct (missingOrBlank (create_description data)); [reflexivity|].
  rewrite throwIf_false.
  destruct (2000 <? _)%nat; [reflexivity|]. rewrite throwIf_false.
  destruct (TaskService.badStatus _); reflexivity.
Qed.

Lemma createTask_verdict E data w :
  TaskService.createTask E data w =
  match createVerdict data with
  | Some c => (Throw (mkTaskError c 400), w)
  | None => InMemoryTaskRepository.create E data w
  end.
Proof.
  unfold TaskService.createTask. js_run.
  rewrite validateCreateData_verdict.
  destruct (createVerdict data); [reflexivity|].
  destruct (InMemoryTaskRepository.create E data w) as [[t|e] w']; reflexivity.
Qed.

(** The repository's [create] always returns, and stores what it returns. *)
Lemma create_returns E data w :
  InMemoryTaskRepository.create E data w =
  (let task :=
     Task.mk (uuidv4 E (uuid_calls w)) (create_title data)
       (create_description data)
       (Task.orElse (create_status data) TaskStatus.PENDING)
       (clock E (clock_reads w)) (clock E (S (clock_reads w))) in
   (Return task,
    mkWorld (<[Task.id task := task]> (store w)) (S (uuid_calls w))
      (S (S (clock_reads w))))).
Proof. reflexivity. Qed.

Lemma isValidStatus_enumerated s :
  TaskService.isValidStatus s = true <-> enumerated s.
Proof.
  unfold TaskService.isValidStatus, TaskStatus.values, enumerated.
  rewrite bool_decide_eq_true, !elem_of_cons, elem_of_nil. tauto.
Qed.

(** The status check of both validators lets [undefined] and the empty
    string through, and refuses every other string that is not enumerated. *)
Lemma badStatus_spec v :
  TaskService.badStatus v = true <->
  exists s, v = Some s /\ s <> [] /\ ~ enumerated s.
Proof.
  destruct v as [s|]; cbn.
  - rewrite andb_true_iff, negb_true_iff, <- not_true_iff_false,
      isValidStatus_enumerated.
    split.
    + intros [Ht Hn]. exists s. destruct s; [discriminate|]. auto.
    + intros (s' & [= <-] & Hne & Hn). destruct s; [congruence|]. auto.
  - split; [discriminate|]. intros (s & [=] & _).
Qed.

Lemma badStatus_valid v :
  match v with Some s => enumerated s | None => True end ->
  TaskService.badStatus v = false.
Proof.
  intros Hv. apply not_true_iff_false. rewrite badStatus_spec.
  intros (s & -> & _ & Hn). auto.
Qed.

Lemma validCreateInput_verdict data :
  validCreateInput data -> createVerdict data = None.
Proof.
  intros (Ht & Htl & Hd & Hdl & Hs). unfold createVerdict.
  rewrite Ht, Hd, (badStatus_valid _ Hs).
  apply Nat.ltb_ge in Htl, Hdl. rewrite Htl, Hdl. reflexivity.
Qed.

Ltac verdict_cases data :=
  unfold createVerdict;
  destruct (missingOrBlank (create_title data)),
    (200 <? TaskService.strLength (create_title data))%nat eqn:?,
    (missingOrBlank (create_description data)),
    (2000 <? TaskService.strLength (create_description data))%nat eqn:?,
    (TaskService.badStatus (create_status data));
  repeat match goal with
    | H : (_ <? _)%nat = true |- _ => apply Nat.ltb_lt in H
    | H : (_ <? _)%nat = false |- _ => apply Nat.ltb_ge in H
    end.

(** C3, amended. [createTask] applies its rules in order and reports the
    first that fails: INVALID_TITLE exactly when the title is missing or
    blank; TITLE_TOO_LONG exactly when the title is not blank and longer
    than 200; INVALID_DESCRIPTION exactly when the title passes and the
    description is missing or blank; DESCRIPTION_TOO_LONG exactly when the
    title passes and the description is not blank and longer than 2000;
    INVALID_STATUS exactly when title and description pass and the status is
    a non-empty string that is not enumerated; it returns a task in every
    other case, in particular on every valid input with an absent or
    enumerated status. A title of 201 letters "a" with description "d"
    fails with TITLE_TOO_LONG. *)
Theorem createTask_first_failing_rule E data w :
  let r := fst (TaskService.createTask E data w) in
  let title := create_title data in
  let description := create_description data in
  let titleOk :=
    missingOrBlank title = false /\ (TaskService.strLength title <= 200)%nat in
  let descriptionOk :=
    missingOrBlank description = false
    /\ (TaskService.strLength description <= 2000)%nat in
  let statusRefused :=
    exists s, create_status data = Some s /\ s <> [] /\ ~ enumerated s in
  (failsWith r INVALID_TITLE <-> missingOrBlank title = true)
  /\ (failsWith r TITLE_TOO_LONG <->
      missingOrBlank title = false /\ (200 < TaskService.strLength title)%nat)
  /\ (failsWith r INVALID_DESCRIPTION <->
      titleOk /\ missingOrBlank description = true)
  /\ (failsWith r DESCRIPTION_TOO_LONG <->
      titleOk /\ missingOrBlank description = false
      /\ (2000 < TaskService.strLength description)%nat)
  /\ (failsWith r INVALID_STATUS <-> titleOk /\ descriptionOk /\ statusRefused)
  /\ ((exists task, r = Return task) <->
      titleOk /\ descriptionOk /\ ~ statusRefused)
  /\ (validCreateInput data -> exists task, r = Return task)
  /\ failsWith
       (fst (TaskService.createTask E
               (mkCreate (Some (repeat 97%N 201)) (Some (js "d")) None) w))
       TITLE_TOO_LONG.
Proof.
  cbv zeta. rewrite <- badStatus_spec.
  split_and!.
  8:{ rewrite createTask_verdict. exists 400. reflexivity. }
  7:{ intros Hv. rewrite createTask_verdict, (validCreateInput_verdict _ Hv),
        create_returns. eexists. reflexivity. }
  all: rewrite createTask_verdict; try rewrite create_returns.
  all: verdict_cases data; cbn [fst]; unfold failsWith.
  all: split;
    [ intros [x Hx]; try discriminate Hx; repeat split; (reflexivity || lia)
    | intros H; try (eexists; reflexivity);
      repeat match goal with H : _ /\ _ |- _ => destruct H end;
      try discriminate; try lia ].
  all: try (match goal with H : ~ _ |- _ => exfalso; apply H; reflexivity end).
  all: try (intros ?; discriminate).
Qed.

(** C3, counterexample. A title of 201 spaces has more than 200 characters,
    yet [createTask] reports INVALID_TITLE for it, not TITLE_TOO_LONG: the
    blank-title rule comes first. Likewise an input with neither title nor
    description fails with INVALID_TITLE, not with INVALID_DESCRIPTION. *)
Lemma createTask_long_blank_title :
  let data := mkCreate (Some (repeat 32%N 201)) (Some (js "d")) None in
  let r := fst (TaskService.createTask sampleEnv data newWorld) in
  let r' := fst (TaskService.createTask sampleEnv (mkCreate None None None)
                   newWorld) in
  (200 < TaskService.strLength (create_title data))%nat
  /\ r = Throw (mkTaskError INVALID_TITLE 400)
  /\ ~ failsWith r TITLE_TOO_LONG
  /\ r' = Throw (mkTaskError INVALID_TITLE 400)
  /\ ~ failsWith r' INVALID_DESCRIPTION.
Proof.
  cbv zeta. rewrite !createTask_verdict. split_and!.
  - unfold TaskService.strLength, create_title. rewrite repeat_length. lia.
  - reflexivity.
  - intros [sc Hsc]. discriminate Hsc.
  - reflexivity.
  - intros [sc Hsc]. discriminate Hsc.
Qed.

Lemma orElse_enumerated s d : enumerated s -> Task.orElse (Some s) d = s.
Proof. intros [-> | [-> | ->]]; reflexivity. Qed.

(** C4. On every valid creation input [createTask] returns a task, stored
    under its id, whose status is [pending] when the status is omitted and
    the given status when one is supplied. *)
Theorem createTask_status E data w :
  validCreateInput data ->
  exists task w',
    TaskService.createTask E data w = (Return task, w')
    /\ store w' !! Task.id task = Some task
    /\ match create_status data with
       | None => Task.status task = TaskStatus.PENDING
       | Some s => Task.status task = s
       end.
Proof.
  intros Hv. rewrite createTask_verdict, (validCreateInput_verdict _ Hv).
  rewrite create_returns. cbv zeta. eexists _, _. split; [reflexivity|].
  cbn [store Task.id Task.status]. split; [apply lookup_insert_eq|].
  destruct Hv as (_ & _ & _ & _ & Hs).
  destruct (create_status data) as [s|]; [|reflexivity].
  apply orElse_enumerated, Hs.
Qed.

(** C4 on [createTask({title: "T", description: "D", status: "in_progress"})]. *)
Lemma createTask_status_witness :
  exists task w',
    TaskService.createTask sampleEnv
      (sampleCreate (Some TaskStatus.IN_PROGRESS)) newWorld = (Return task, w')
    /\ store w' !! Task.id task = Some task
    /\ Task.status task = TaskStatus.IN_PROGRESS.
Proof.
  apply (createTask_status sampleEnv
           (sampleCreate (Some TaskStatus.IN_PROGRESS)) newWorld).
  unfold validCreateInput. cbn. split_and!; try reflexivity; try lia.
  right. left. reflexivity.
Defined.

(** ** The repository and the service, method by method *)

Lemma validateId_eq id w :
  TaskService.validateId id w =
  if isBlank id then (Throw (mkTaskError INVALID_ID 400), w) else (Return tt, w).
Proof.
  unfold TaskService.validateId.
  change (negb (truthy (Some id)) || isBlank id)
    with (negb (truthy (Some id)) || TaskService.trimmedLength0 (Some id)).
  rewrite create_check. cbn. destruct (isBlank id); reflexivity.
Qed.

Lemma validateUpdateData_verdict data w :
  TaskService.validateUpdateData data w =
  (match updateVerdict data with
   | Some c => Throw (mkTaskError c 400)
   | None => Return tt
   end, w).
Proof.
  unfold TaskService.validateUpdateData, updateVerdict. js_run.
  destruct (TaskService.trimmedLength0 (update_title data)); [reflexivity|].
  rewrite throwIf_false.
  destruct (truthy (update_title data) && _); [reflexivity|].
  rewrite throwIf_false.
  destruct (TaskService.trimmedLength0 (update_description data)); [reflexivity|].
  rewrite throwIf_false.
  destruct (truthy (update_description data) && _); [reflexivity|].
  rewrite throwIf_false.
  destruct (TaskService.badStatus _); reflexivity.
Qed.

Lemma update_eq E id data w :
  InMemoryTaskRepository.update E id data w =
  match store w !! id with
  | None => (Return None, w)
  | Some task =>
      let task' := updated data (clock E (clock_reads w)) task in
      (Return (Some task'),
       mkWorld (<[id := task']> (store w)) (uuid_calls w) (S (clock_reads w)))
  end.
Proof.
  unfold InMemoryTaskRepository.update, InMemoryTaskRepository.findById.
  js_run. destruct (store w !! id); reflexivity.
Qed.

Lemma updateTask_eq E id data w :
  TaskService.updateTask E id data w =
  if isBlank id then (Throw (mkTaskError INVALID_ID 400), w)
  else match updateVerdict data with
       | Some c => (Throw (mkTaskError c 400), w)
       | None =>
           match store w !! id with
           | None => (Throw (mkTaskError TASK_NOT_FOUND 404), w)
           | Some task =>
               let task' := updated data (clock E (clock_reads w)) task in
               (Return task',
                mkWorld (<[id := task']> (store w)) (uuid_calls w)
                  (S (clock_reads w)))
           end
       end.
Proof.
  unfold TaskService.updateTask.
  unfold mbind at 1 2 3. unfold Js_bind.
  rewrite validateId_eq. destruct (isBlank id); [reflexivity|].
  rewrite validateUpdateData_verdict.
  destruct (updateVerdict data); [reflexivity|].
  rewrite update_eq. destruct (store w !! id); reflexivity.
Qed.

Lemma delete_eq id w :
  InMemoryTaskRepository.delete id w =
  match store w !! id with
  | Some _ =>
      (Return true,
       mkWorld (base.delete id (store w)) (uuid_calls w) (clock_reads w))
  | None => (Return false, w)
  end.
Proof.
  unfold InMemoryTaskRepository.delete. js_run.
  destruct (store w !! id) eqn:Hid.
  - rewrite bool_decide_eq_true_2 by eauto. reflexivity.
  - rewrite bool_decide_eq_false_2 by (intros [? ?]; discriminate). reflexivity.
Qed.

Lemma deleteTask_eq id w :
  TaskService.deleteTask id w =
  if isBlank id then (Throw (mkTaskError INVALID_ID 400), w)
  else match store w !! id with
       | Some _ =>
           (Return tt,
            mkWorld (base.delete id (store w)) (uuid_calls w) (clock_reads w))
       | None => (Throw (mkTaskError TASK_NOT_FOUND 404), w)
       end.
Proof.
  unfold TaskService.deleteTask. unfold mbind at 1 2. unfold Js_bind.
  rewrite validateId_eq. destruct (isBlank id); [reflexivity|].
  rewrite delete_eq. destruct (store w !! id); reflexivity.
Qed.

Lemma getTaskById_eq id w :
  TaskService.getTaskById id w =
  if isBlank id then (Throw (mkTaskError INVALID_ID 400), w)
  else match store w !! id with
       | Some task => (Return task, w)
       | None => (Throw (mkTaskError TASK_NOT_FOUND 404), w)
       end.
Proof.
  unfold TaskService.getTaskById. unfold mbind at 1 2. unfold Js_bind.
  rewrite validateId_eq. destruct (isBlank id); [reflexivity|].
  unfold InMemoryTaskRepository.findById, gets. cbn.
  destruct (store w !! id); reflexivity.
Qed.

(** ** Updating an id that is not there *)

(** C6, amended. For an id that is not in the store and a partial that
    [validateUpdateData] accepts (the empty partial is one), the store's
    [update] returns absent and changes nothing; [updateTask] fails with
    TASK_NOT_FOUND when the id is not blank, and with INVALID_ID when it is. *)
Theorem update_absent_id E id data w :
  store w !! id = None ->
  fst (TaskService.validateUpdateData data w) = Return tt ->
  InMemoryTaskRepository.update E id data w = (Return None, w)
  /\ (isBlank id = false ->
      TaskService.updateTask E id data w =
      (Throw (mkTaskError TASK_NOT_FOUND 404), w))
  /\ (isBlank id = true ->
      TaskService.updateTask E id data w =
      (Throw (mkTaskError INVALID_ID 400), w))
  /\ fst (TaskService.validateUpdateData (mkUpdate None None None) w) = Return tt.
Proof.
  intros Hid Hok. rewrite validateUpdateData_verdict in Hok. cbn [fst] in Hok.
  rewrite updateTask_eq, update_eq, Hid.
  destruct (updateVerdict data); [discriminate|].
  split_and!; [reflexivity | intros ->; reflexivity | intros ->; reflexivity
              | reflexivity].
Qed.

(** C6 on the id of the service's tests and the empty partial. *)
Lemma update_absent_id_witness :
  let id := js "id-inexistente" in
  let data := mkUpdate None None None in
  InMemoryTaskRepository.update sampleEnv id data newWorld = (Return None, newWorld)
  /\ (isBlank id = false ->
      TaskService.updateTask sampleEnv id data newWorld =
      (Throw (mkTaskError TASK_NOT_FOUND 404), newWorld))
  /\ (isBlank id = true ->
      TaskService.updateTask sampleEnv id data newWorld =
      (Throw (mkTaskError INVALID_ID 400), newWorld))
  /\ fst (TaskService.validateUpdateData (mkUpdate None None None) newWorld)
     = Return tt.
Proof.
  apply (update_absent_id sampleEnv (js "id-inexistente")
           (mkUpdate None None None) newWorld); reflexivity.
Defined.

(** C6, counterexample. The id of one space is not in the new store and the
    empty partial passes validation, yet [updateTask] fails with INVALID_ID,
    not with TASK_NOT_FOUND. *)
Lemma updateTask_blank_id :
  let id := js " " in
  let data := mkUpdate None None None in
  store newWorld !! id = None
  /\ fst (TaskService.validateUpdateData data newWorld) = Return tt
  /\ TaskService.updateTask sampleEnv id data newWorld =
     (Throw (mkTaskError INVALID_ID 400), newWorld).
Proof. cbv zeta. rewrite updateTask_eq. split_and!; reflexivity. Qed.

(** ** Deleting *)

(** C7, amended. [delete] returns true and removes the record, leaving the
    others, exactly when the id was in the store, and returns false and
    changes nothing otherwise. For an id that is not blank, [deleteTask]
    fails with TASK_NOT_FOUND exactly when the store returns false; for a
    blank id it fails with INVALID_ID. After a [deleteTask] that returned,
    [getTaskById] of the same id fails with TASK_NOT_FOUND. *)
Theorem delete_outcomes id w :
  let deleted := InMemoryTaskRepository.delete id w in
  let r := TaskService.deleteTask id w in
  (fst deleted = Return true <-> is_Some (store w !! id))
  /\ (fst deleted = Return false <-> store w !! id = None)
  /\ (fst deleted = Return true ->
      store (snd deleted) !! id = None
      /\ forall id', id' <> id -> store (snd deleted) !! id' = store w !! id')
  /\ (fst deleted = Return false -> snd deleted = w)
  /\ (isBlank id = false ->
      (fst r = Throw (mkTaskError TASK_NOT_FOUND 404)
       <-> fst deleted = Return false)
      /\ (fst r = Return tt <-> fst deleted = Return true))
  /\ (isBlank id = true -> r = (Throw (mkTaskError INVALID_ID 400), w))
  /\ (fst r = Return tt ->
      TaskService.getTaskById id (snd r) =
      (Throw (mkTaskError TASK_NOT_FOUND 404), snd r)).
Proof.
  cbv zeta. rewrite delete_eq, deleteTask_eq, getTaskById_eq.
  destruct (store w !! id) as [task|] eqn:Hid; cbn [fst snd].
  - split_and!; try (intros; discriminate).
    + split; eauto.
    + split; discriminate.
    + intros _. cbn [store]. split; [apply lookup_delete_eq|].
      intros id' Hne. apply lookup_delete_ne. congruence.
    + intros ->. cbn [fst]. split; split; (discriminate || reflexivity).
    + intros ->. reflexivity.
    + destruct (isBlank id); cbn [fst snd]; [discriminate|].
      intros _. cbn [store]. rewrite lookup_delete_eq. reflexivity.
  - split_and!; try (intros; discriminate).
    + split; [discriminate|]. intros [? ?]; discriminate.
    + split; reflexivity.
    + reflexivity.
    + intros ->. cbn [fst]. split; split; (discriminate || reflexivity).
    + intros ->. reflexivity.
    + destruct (isBlank id); cbn [fst]; discriminate.
Qed.

(** C7, counterexample. The id of one space is a non-empty string; the
    store's [delete] returns false for it, yet [deleteTask] fails with
    INVALID_ID, not with TASK_NOT_FOUND. *)
Lemma deleteTask_blank_id :
  let id := js " " in
  id <> []
  /\ fst (InMemoryTaskRepository.delete id newWorld) = Return false
  /\ TaskService.deleteTask id newWorld =
     (Throw (mkTaskError INVALID_ID 400), newWorld).
Proof.
  cbv zeta. rewrite deleteTask_eq, delete_eq.
  split_and!; [discriminate | reflexivity | reflexivity].
Qed.

(** ** Runs: what a call can do to the world *)

Lemma getStatistics_eq w :
  TaskService.getStatistics w =
  (let all := (map_to_list (store w)).*2 in
   let count status := length (filter (fun task => Task.status task = status) all) in
   Return (TaskService.mkStats (size (store w))
             (count TaskStatus.PENDING) (count TaskStatus.IN_PROGRESS)
             (count TaskStatus.DONE)
             (codeCompletionRate (count TaskStatus.DONE) (size (store w)))),
   w).
Proof. reflexivity. Qed.

Lemma getTasksByStatus_world status w :
  snd (TaskService.getTasksByStatus status w) = w.
Proof.
  unfold TaskService.getTasksByStatus, TaskService.validateStatus.
  js_run. destruct (negb _); reflexivity.
Qed.

(** A call leaves the world as it was, or stores a new task under a new
    identifier, or replaces a stored task by its update, or removes one. *)
Lemma after_cases E c w :
  after E c w = w
  \/ (exists data,
        after E c w =
        mkWorld (<[uuidv4 E (uuid_calls w) :=
                    Task.mk (uuidv4 E (uuid_calls w)) (create_title data)
                      (create_description data)
                      (Task.orElse (create_status data) TaskStatus.PENDING)
                      (clock E (clock_reads w)) (clock E (S (clock_reads w)))]>
                   (store w))
          (S (uuid_calls w)) (S (S (clock_reads w))))
  \/ (exists id data task,
        store w !! id = Some task
        /\ after E c w =
           mkWorld (<[id := updated data (clock E (clock_reads w)) task]> (store w))
             (uuid_calls w) (S (clock_reads w)))
  \/ (exists id,
        after E c w =
        mkWorld (base.delete id (store w)) (uuid_calls w) (clock_reads w)).
Proof.
  assert (Hupd : forall id data,
    snd (TaskService.updateTask E id data w) = w
    \/ exists task, store w !! id = Some task
       /\ snd (TaskService.updateTask E id data w) =
          mkWorld (<[id := updated data (clock E (clock_reads w)) task]> (store w))
            (uuid_calls w) (S (clock_reads w))).
  { intros id data. rewrite updateTask_eq.
    destruct (isBlank id); [left; reflexivity|].
    destruct (updateVerdict data); [left; reflexivity|].
    destruct (store w !! id) as [task|]; [|left; reflexivity].
    right. exists task. split; reflexivity. }
  destruct c as [data| |id|status|id data|id|id|id|id|]; cbn [after].
  - rewrite createTask_verdict.
    destruct (createVerdict data); [left; reflexivity|].
    right. left. exists data. reflexivity.
  - left. reflexivity.
  - left. rewrite getTaskById_eq.
    destruct (isBlank id); [reflexivity|]. destruct (store w !! id); reflexivity.
  - left. apply getTasksByStatus_world.
  - destruct (Hupd id data) as [H | (task & Ht & H)]; [left; exact H|].
    right. right. left. eauto.
  - rewrite deleteTask_eq. destruct (isBlank id); [left; reflexivity|].
    destruct (store w !! id); [|left; reflexivity].
    right. right. right. exists id. reflexivity.
  - destruct (Hupd id (mkUpdate None None (Some TaskStatus.DONE)))
      as [H | (task & Ht & H)]; [left; exact H|].
    right. right. left. eauto.
  - destruct (Hupd id (mkUpdate None None (Some TaskStatus.IN_PROGRESS)))
      as [H | (task & Ht & H)]; [left; exact H|].
    right. right. left. eauto.
  - destruct (Hupd id (mkUpdate None None (Some TaskStatus.PENDING)))
      as [H | (task & Ht & H)]; [left; exact H|].
    right. right. left. eauto.
  - left. reflexivity.
Qed.

Lemma wellFormed_after E c w :
  wellFormed E w -> wellFormed E (after E c w).
Proof.
  intros Hw.
  destruct (after_cases E c w)
    as [-> | [(data & ->) | [(id & data & task & Ht & ->) | (id & ->)]]].
  - exact Hw.
  - intros id' task'. cbn [store clock_reads].
    rewrite lookup_insert. case_decide as Hid.
    + intros [= <-]. subst id'. cbn. split_and!; [reflexivity | eauto |].
      exists (S (clock_reads w)), (clock_reads w). split_and!; (lia || reflexivity).
    + intros Hl. destruct (Hw _ _ Hl) as (Hi & Hn & i & j & Hij & Hc & Hu).
      split_and!; [exact Hi | exact Hn |]. exists i, j. split_and!; (lia || assumption).
  - intros id' task'. cbn [store clock_reads].
    destruct (Hw _ _ Ht) as (Hi & Hn & i & j & Hij & Hc & Hu).
    rewrite lookup_insert. case_decide as Hid.
    + intros [= <-]. subst id'. cbn. split_and!; [exact Hi | exact Hn |].
      exists (clock_reads w), j. split_and!; (lia || assumption || reflexivity).
    + intros Hl.
      destruct (Hw _ _ Hl) as (Hi' & Hn' & i' & j' & Hij' & Hc' & Hu').
      split_and!; [exact Hi' | exact Hn' |].
      exists i', j'. split_and!; (lia || assumption).
  - intros id' task'. cbn [store clock_reads].
    rewrite lookup_delete. case_decide as Hid; [discriminate|].
    apply Hw.
Qed.

Lemma reachable_wellFormed E w : reachable E w -> wellFormed E w.
Proof.
  induction 1 as [|c w Hr IH].
  - intros id task Hl. discriminate Hl.
  - apply wellFormed_after, IH.
Qed.

Lemma runCalls_reachable E cs : reachable E (runCalls E cs).
Proof.
  unfold runCalls. generalize newWorld (reachable_new E).
  induction cs as [|c cs IH]; intros w Hw; cbn; [exact Hw|].
  apply IH. constructor. exact Hw.
Qed.

(** ** Updating the status of a stored task *)

(** On a stored task whose id is not blank, a status update returns the
    updated task and replaces the stored one. *)
Lemma updateTask_status_eq E id s task w :
  isBlank id = false -> enumerated s -> store w !! id = Some task ->
  TaskService.updateTask E id (mkUpdate None None (Some s)) w =
  (Return (updated (mkUpdate None None (Some s)) (clock E (clock_reads w)) task),
   mkWorld (<[id := updated (mkUpdate None None (Some s))
                     (clock E (clock_reads w)) task]> (store w))
     (uuid_calls w) (S (clock_reads w))).
Proof.
  intros Hid Hs Ht. rewrite updateTask_eq, Hid, Ht.
  unfold updateVerdict. cbn [update_title update_description update_status].
  rewrite (badStatus_valid (Some s)) by exact Hs. reflexivity.
Qed.

(** C8. In a store the service has built (identifiers as [uuidv4] makes
    them, never blank), [updateTask(id, {status: s})] with an enumerated [s]
    on a stored task returns; the stored task then has status [s] and the
    title, description, id and creation date it had, and every other task of
    the store is as it was. *)
Theorem updateTask_status_frame E w id task s :
  uuidsNotBlank E -> reachable E w ->
  store w !! id = Some task -> enumerated s ->
  exists task' w',
    TaskService.updateTask E id (mkUpdate None None (Some s)) w = (Return task', w')
    /\ store w' !! id = Some task'
    /\ Task.status task' = s
    /\ Task.title task' = Task.title task
    /\ Task.description task' = Task.description task
    /\ Task.id task' = Task.id task
    /\ Task.createdAt task' = Task.createdAt task
    /\ (forall id', id' <> id -> store w' !! id' = store w !! id')
    /\ dom (store w') = dom (store w).
Proof.
  intros Huuid Hr Ht Hs.
  destruct (reachable_wellFormed E w Hr id task Ht) as (_ & [n ->] & _).
  rewrite (updateTask_status_eq E _ s task w (Huuid n) Hs Ht).
  eexists _, _. split; [reflexivity|]. cbn [store].
  split_and!; try reflexivity.
  - apply lookup_insert_eq.
  - intros id' Hne. apply lookup_insert_ne. congruence.
  - apply set_eq. intros k. rewrite dom_insert, elem_of_union, elem_of_singleton.
    split; [intros [-> | H]; [apply elem_of_dom; eauto | exact H] | auto].
Qed.

Lemma sampleId_not_blank n : isBlank (sampleId n) = false.
Proof. rewrite isBlank_forallb. reflexivity. Qed.

Lemma oneTask_firstTask E :
  oneTask E = mkWorld {[uuidv4 E 0 := firstTask E]} 1 2.
Proof. reflexivity. Qed.

(** C8 on the task of [oneTask], marked done. *)
Lemma updateTask_status_frame_witness :
  exists task' w',
    TaskService.updateTask sampleEnv (sampleId 0)
      (mkUpdate None None (Some TaskStatus.DONE)) (oneTask sampleEnv)
    = (Return task', w')
    /\ store w' !! sampleId 0 = Some task'
    /\ Task.status task' = TaskStatus.DONE
    /\ Task.title task' = Task.title (firstTask sampleEnv)
    /\ Task.description task' = Task.description (firstTask sampleEnv)
    /\ Task.id task' = Task.id (firstTask sampleEnv)
    /\ Task.createdAt task' = Task.createdAt (firstTask sampleEnv)
    /\ (forall id', id' <> sampleId 0 ->
        store w' !! id' = store (oneTask sampleEnv) !! id')
    /\ dom (store w') = dom (store (oneTask sampleEnv)).
Proof.
  apply (updateTask_status_frame sampleEnv (oneTask sampleEnv) (sampleId 0)
           (firstTask sampleEnv) TaskStatus.DONE).
  - exact sampleId_not_blank.
  - apply reachable_call, reachable_new.
  - rewrite oneTask_firstTask. apply lookup_singleton_eq.
  - right. right. reflexivity.
Defined.

(** ** Time stamps *)

(** The [markTaskAs...] methods are status updates. *)
Lemma markTaskAs_updateTask E id :
  TaskService.markTaskAsDone E id
  = TaskService.updateTask E id (mkUpdate None None (Some TaskStatus.DONE))
  /\ TaskService.markTaskAsInProgress E id
     = TaskService.updateTask E id (mkUpdate None None (Some TaskStatus.IN_PROGRESS))
  /\ TaskService.markTaskAsPending E id
     = TaskService.updateTask E id (mkUpdate None None (Some TaskStatus.PENDING)).
Proof. split_and!; reflexivity. Qed.




(** ** The status of stored tasks *)

(** C1, the failing run. After [createTask({title: "T", description: "D"})]
    and [updateTask(id, {status: ""})] on the task created, both of which
    return, the store holds a task whose status is the empty string, which
    is none of the three enumerated values: [validateUpdateData] tests the
    status for truthiness and lets the empty string through, and
    [Task.update] assigns whatever is not [undefined]. *)
Theorem updateTask_stores_empty_status :
  let create := CreateTask (sampleCreate None) in
  let update := UpdateTask (sampleId 0) (mkUpdate None None (Some [])) in
  let w := runCalls sampleEnv [create; update] in
  exists task,
    fst (TaskService.updateTask sampleEnv (sampleId 0)
           (mkUpdate None None (Some [])) (oneTask sampleEnv)) = Return task
    /\ store w !! sampleId 0 = Some task
    /\ Task.status task = []
    /\ ~ enumerated (Task.status task)
    /\ reachable sampleEnv w.
Proof.
  cbv zeta.
  exists (updated (mkUpdate None None (Some [])) (clock sampleEnv 2)
            (firstTask sampleEnv)).
  assert (Hupd : TaskService.updateTask sampleEnv (sampleId 0)
                   (mkUpdate None None (Some [])) (oneTask sampleEnv)
                 = (Return (updated (mkUpdate None None (Some []))
                              (clock sampleEnv 2) (firstTask sampleEnv)),
                    mkWorld (<[sampleId 0 :=
                                updated (mkUpdate None None (Some []))
                                  (clock sampleEnv 2) (firstTask sampleEnv)]>
                               (store (oneTask sampleEnv))) 1 3)).
  { rewrite updateTask_eq, oneTask_firstTask. cbn [store].
    change (uuidv4 sampleEnv 0) with (sampleId 0).
    rewrite sampleId_not_blank, lookup_singleton_eq. reflexivity. }
  split_and!.
  - rewrite Hupd. reflexivity.
  - change (runCalls sampleEnv _)
      with (snd (TaskService.updateTask sampleEnv (sampleId 0)
                   (mkUpdate None None (Some [])) (oneTask sampleEnv))).
    rewrite Hupd. cbn [snd store]. apply lookup_insert_eq.
  - reflexivity.
  - intros [H | [H | H]]; discriminate H.
  - apply runCalls_reachable.
Qed.

Lemma orElse_allowed v :
  TaskService.badStatus v = false -> enumerated (Task.orElse v TaskStatus.PENDING).
Proof.
  destruct v as [[|c s]|]; cbn; try (intros _; left; reflexivity).
  rewrite negb_false_iff, isValidStatus_enumerated. auto.
Qed.

Lemma assigned_allowed v old :
  TaskService.badStatus v = false -> v <> Some [] -> enumerated old ->
  enumerated (Task.assigned v old).
Proof.
  destruct v as [[|c s]|]; cbn; try (intros; auto; congruence).
  rewrite negb_false_iff, isValidStatus_enumerated. auto.
Qed.

(** Where the defect of C1 ends: a call other than an update of the status
    to the empty string keeps every stored status enumerated. *)
Lemma allEnumerated_after E c w :
  noEmptyStatus c -> allEnumerated w -> allEnumerated (after E c w).
Proof.
  intros Hc Hw.
  assert (Hupd : forall id data, update_status data <> Some [] ->
            allEnumerated (snd (TaskService.updateTask E id data w))).
  { intros id data Hne. rewrite updateTask_eq.
    destruct (isBlank id); [exact Hw|].
    destruct (updateVerdict data) eqn:Hv; [exact Hw|].
    destruct (store w !! id) as [task|] eqn:Ht; [|exact Hw].
    intros id' task'. cbn [snd store]. rewrite lookup_insert.
    case_decide; [|apply Hw]. intros [= <-]. cbn.
    apply assigned_allowed; [|exact Hne|eapply Hw, Ht].
    unfold updateVerdict in Hv.
    repeat match type of Hv with
      | (if ?b then _ else _) = _ => destruct b; try discriminate Hv
      end.
    reflexivity. }
  destruct c as [data| |id|status|id data|id|id|id|id|]; cbn [after].
  - rewrite createTask_verdict.
    destruct (createVerdict data) eqn:Hv; [exact Hw|].
    rewrite create_returns. cbv zeta. intros id' task'. cbn [snd store Task.id].
    rewrite lookup_insert. case_decide; [|apply Hw]. intros [= <-]. cbn.
    apply orElse_allowed. unfold createVerdict in Hv.
    repeat match type of Hv with
      | (if ?b then _ else _) = _ => destruct b; try discriminate Hv
      end.
    reflexivity.
  - exact Hw.
  - rewrite getTaskById_eq. destruct (isBlank id); [exact Hw|].
    destruct (store w !! id); exact Hw.
  - rewrite getTasksByStatus_world. exact Hw.
  - apply Hupd, Hc.
  - rewrite deleteTask_eq. destruct (isBlank id); [exact Hw|].
    destruct (store w !! id); [|exact Hw].
    intros id' task'. cbn [snd store]. rewrite lookup_delete.
    case_decide; [discriminate|]. apply Hw.
  - apply Hupd. discriminate.
  - apply Hupd. discriminate.
  - apply Hupd. discriminate.
  - exact Hw.
Qed.

(** ** Serialisation *)

Lemma fromJSON_toJSON_truthy E {Store} (task : Task.t) (w : World Store) :
  Task.status task <> [] ->
  Task.fromJSON E (Task.toJSON task) w =
  (Return task, mkWorld (store w) (S (uuid_calls w)) (S (S (clock_reads w)))).
Proof.
  intros Hs. destruct task as [i t d s c u]. cbn in Hs.
  unfold Task.fromJSON, Task.new. js_run. cbn.
  destruct s; [congruence | reflexivity].
Qed.

(** C9, amended. For every task, [fromJSON(toJSON(t))] returns a task with
    the id, title, description, [createdAt] and [updatedAt] of [t]: the
    identifier and the two clock readings its constructor draws are
    overwritten by the serialised ones, never regenerated or re-stamped. Its
    status is the status of [t] whenever that is not the empty string (so
    for each of the three enumerated values), and the task is then [t]
    field for field; when the status of [t] is the empty string the result
    has status [pending]. The store is not touched. *)
Theorem fromJSON_toJSON E {Store} (task : Task.t) (w : World Store) :
  exists task' w',
    Task.fromJSON E (Task.toJSON task) w = (Return task', w')
    /\ Task.id task' = Task.id task
    /\ Task.title task' = Task.title task
    /\ Task.description task' = Task.description task
    /\ Task.createdAt task' = Task.createdAt task
    /\ Task.updatedAt task' = Task.updatedAt task
    /\ (Task.status task <> [] ->
        Task.status task' = Task.status task /\ task' = task)
    /\ (enumerated (Task.status task) ->
        Task.status task' = Task.status task /\ task' = task)
    /\ (Task.status task = [] -> Task.status task' = TaskStatus.PENDING)
    /\ store w' = store w.
Proof.
  destruct task as [i t d s c u]. eexists _, _. split; [reflexivity|].
  cbn [Task.id Task.title Task.description Task.status Task.createdAt
       Task.updatedAt Task.toJSON json_status json_id json_title
       json_description json_createdAt json_updatedAt store].
  assert (Hne : s <> [] ->
            Task.orElse (Some s) TaskStatus.PENDING = s
            /\ Task.mk i t d (Task.orElse (Some s) TaskStatus.PENDING) c u
               = Task.mk i t d s c u).
  { destruct s as [|x s]; [congruence|]. intros _. split; reflexivity. }
  split_and!; try reflexivity.
  - exact Hne.
  - intros Hs. apply Hne. destruct Hs as [-> | [-> | ->]]; discriminate.
  - intros ->. reflexivity.
Qed.

(** C9, counterexample. The task that the run of C1 leaves in the store has
    the empty string as status; [fromJSON(toJSON(t))] of it returns, with
    status [pending], which is not the status of [t]. *)
Lemma fromJSON_resets_empty_status :
  let create := CreateTask (sampleCreate None) in
  let update := UpdateTask (sampleId 0) (mkUpdate None None (Some [])) in
  let w := runCalls sampleEnv [create; update] in
  let task := updated (mkUpdate None None (Some [])) (clock sampleEnv 2)
                (firstTask sampleEnv) in
  store w !! sampleId 0 = Some task
  /\ reachable sampleEnv w
  /\ Task.status task = []
  /\ exists task',
       fst (Task.fromJSON sampleEnv (Task.toJSON task) w) = Return task'
       /\ Task.status task' = TaskStatus.PENDING
       /\ Task.status task' <> Task.status task.
Proof.
  cbv zeta. split_and!.
  - change (runCalls sampleEnv _)
      with (snd (TaskService.updateTask sampleEnv (sampleId 0)
                   (mkUpdate None None (Some [])) (oneTask sampleEnv))).
    rewrite updateTask_eq, oneTask_firstTask. cbn [store].
    change (uuidv4 sampleEnv 0) with (sampleId 0).
    rewrite sampleId_not_blank, lookup_singleton_eq. cbn [snd store].
    apply lookup_insert_eq.
  - apply runCalls_reachable.
  - reflexivity.
  - eexists. split_and!; [reflexivity | reflexivity | discriminate].
Qed.

(** Outside the data model: a task whose status is the empty string (the
    one the run of C1 stores) comes back from [fromJSON] as [pending]. *)
Lemma fromJSON_empty_status E {Store} (task : Task.t) (w : World Store) :
  Task.status task = [] ->
  exists task', fst (Task.fromJSON E (Task.toJSON task) w) = Return task'
                /\ Task.status task' = TaskStatus.PENDING.
Proof.
  intros Hs. destruct task as [i t d s c u]. cbn in Hs. subst s.
  eexists. split; reflexivity.
Qed.

(** ** Statistics *)

Lemma count_partition (l : list Task.t) :
  Forall (fun task => enumerated (Task.status task)) l ->
  length l =
  (length (filter (fun task => Task.status task = TaskStatus.PENDING) l)
   + length (filter (fun task => Task.status task = TaskStatus.IN_PROGRESS) l)
   + length (filter (fun task => Task.status task = TaskStatus.DONE) l))%nat.
Proof.
  induction 1 as [|task l Hs _ IH]; [reflexivity|].
  rewrite !filter_cons. cbn [length]. rewrite IH.
  destruct Hs as [Hs | [Hs | Hs]]; rewrite Hs;
    repeat case_decide; try discriminate; try congruence; cbn [length]; lia.
Qed.

Lemma stored_tasks (m : TaskMap) task :
  task ∈ (map_to_list m).*2 <-> exists id, m !! id = Some task.
Proof.
  rewrite list_elem_of_fmap. split.
  - intros ([id t] & -> & Hin). exists id. apply elem_of_map_to_list, Hin.
  - intros [id Hid]. exists (id, task). split; [reflexivity|].
    apply elem_of_map_to_list, Hid.
Qed.

Lemma count_le_size (m : TaskMap) status :
  (length (filter (fun task => Task.status task = status) (map_to_list m).*2)
   <= size m)%nat.
Proof.
  etransitivity; [apply length_filter|].
  rewrite length_fmap, length_map_to_list. reflexivity.
Qed.

(** C10. When every stored task has an enumerated status, the statistics
    satisfy [total = pending + inProgress + done]: [count()] is the sum of
    [countByStatus] over the three statuses. *)
Theorem statistics_total_is_sum w :
  allEnumerated w ->
  exists stats,
    TaskService.getStatistics w = (Return stats, w)
    /\ TaskService.total stats =
       (TaskService.pending stats + TaskService.inProgress stats
        + TaskService.done stats)%nat
    /\ fst (InMemoryTaskRepository.count w) = Return (TaskService.total stats)
    /\ fst (InMemoryTaskRepository.countByStatus TaskStatus.PENDING w)
       = Return (TaskService.pending stats)
    /\ fst (InMemoryTaskRepository.countByStatus TaskStatus.IN_PROGRESS w)
       = Return (TaskService.inProgress stats)
    /\ fst (InMemoryTaskRepository.countByStatus TaskStatus.DONE w)
       = Return (TaskService.done stats).
Proof.
  intros Hw. rewrite getStatistics_eq. cbv zeta. eexists. split; [reflexivity|].
  cbn [TaskService.total TaskService.pending TaskService.inProgress
       TaskService.done].
  split_and!; try reflexivity.
  rewrite <- length_map_to_list, <- (length_fmap snd).
  apply count_partition. apply Forall_forall. intros task Hin.
  apply stored_tasks in Hin as [id Hid]. exact (Hw id task Hid).
Qed.

Lemma allEnumerated_runCalls E cs :
  Forall noEmptyStatus cs -> allEnumerated (runCalls E cs).
Proof.
  unfold runCalls. intros Hcs.
  assert (Hnew : allEnumerated newWorld) by (intros id task Hl; discriminate Hl).
  revert Hnew. generalize newWorld.
  induction Hcs as [|c cs Hc _ IH]; intros w Hw; cbn [fold_left]; [exact Hw|].
  apply IH, allEnumerated_after; assumption.
Qed.

(** C10 on the four tasks of the statistics test. *)
Lemma statistics_total_is_sum_witness :
  exists stats,
    TaskService.getStatistics (runCalls sampleEnv fourTasks)
    = (Return stats, runCalls sampleEnv fourTasks)
    /\ TaskService.total stats =
       (TaskService.pending stats + TaskService.inProgress stats
        + TaskService.done stats)%nat
    /\ fst (InMemoryTaskRepository.count (runCalls sampleEnv fourTasks))
       = Return (TaskService.total stats)
    /\ fst (InMemoryTaskRepository.countByStatus TaskStatus.PENDING
              (runCalls sampleEnv fourTasks))
       = Return (TaskService.pending stats)
    /\ fst (InMemoryTaskRepository.countByStatus TaskStatus.IN_PROGRESS
              (runCalls sampleEnv fourTasks))
       = Return (TaskService.inProgress stats)
    /\ fst (InMemoryTaskRepository.countByStatus TaskStatus.DONE
              (runCalls sampleEnv fourTasks))
       = Return (TaskService.done stats).
Proof.
  apply (statistics_total_is_sum (runCalls sampleEnv fourTasks)).
  apply allEnumerated_runCalls. repeat constructor.
Defined.

(** *** The completion rate *)

Lemma map_eq_pointwise {A B} (f g : A -> B) (l : list A) x :
  map f l = map g l -> In x l -> f x = g x.
Proof.
  induction l as [|a l IH]; cbn; [tauto|].
  intros [= Ha Hl] [-> | Hin]; auto.
Qed.

Lemma in_countPairs n done total :
  (0 < total <= n)%nat -> (done <= total)%nat -> In (done, total) (countPairs n).
Proof.
  intros Ht Hd. unfold countPairs. apply in_flat_map.
  exists (Nat.pred total). split; [apply in_seq; lia|].
  apply in_map_iff. exists done. split; [f_equal; lia | apply in_seq; lia].
Qed.

(** Below 160 tasks the rate the service computes in binary64 is the rate of
    the specification, whatever the two counters: all 12879 pairs checked. *)
Lemma rates_agree_table :
  map (fun p => codeCompletionRate (fst p) (snd p)) (countPairs 159)
  = map (fun p => specCompletionRate (fst p) (snd p)) (countPairs 159).
Proof. vm_compute. reflexivity. Qed.

Lemma rates_agree done total :
  (done <= total < 160)%nat ->
  codeCompletionRate done total = specCompletionRate done total.
Proof.
  intros Hdt. destruct total as [|total].
  - reflexivity.
  - apply (map_eq_pointwise
             (fun p => codeCompletionRate (fst p) (snd p))
             (fun p => specCompletionRate (fst p) (snd p))
             (countPairs 159) (done, S total) rates_agree_table).
    apply in_countPairs; lia.
Qed.

(** C5, amended. [getStatistics] returns [total = count()],
    [pending], [inProgress], [done] = [countByStatus] of each status, and
    leaves the store as it is; [completionRate] is 0 when [total = 0], and
    otherwise [Math.round] of the binary64 product [done / total * 100 * 100]
    (a tie going up), divided by 100. In every store of fewer than 160 tasks
    that is [done/total*100] rounded half up to two decimals. Four tasks
    with statuses pending, pending, in_progress, done give
    [{total: 4, pending: 2, inProgress: 1, done: 1, completionRate: 25}] and
    no task gives all zeros. *)
Theorem getStatistics_result w :
  exists stats,
    TaskService.getStatistics w = (Return stats, w)
    /\ fst (InMemoryTaskRepository.count w) = Return (TaskService.total stats)
    /\ fst (InMemoryTaskRepository.countByStatus TaskStatus.PENDING w)
       = Return (TaskService.pending stats)
    /\ fst (InMemoryTaskRepository.countByStatus TaskStatus.IN_PROGRESS w)
       = Return (TaskService.inProgress stats)
    /\ fst (InMemoryTaskRepository.countByStatus TaskStatus.DONE w)
       = Return (TaskService.done stats)
    /\ TaskService.completionRate stats
       = (if (0 <? TaskService.total stats)%nat
          then (Math_round (Number_of_nat (TaskService.done stats)
                            / Number_of_nat (TaskService.total stats)
                            * 100 * 100) / 100)%float
          else 0%float)
    /\ ((TaskService.total stats < 160)%nat ->
        TaskService.completionRate stats
        = specCompletionRate (TaskService.done stats) (TaskService.total stats))
    /\ (TaskService.total stats = 4%nat -> TaskService.done stats = 1%nat ->
        TaskService.completionRate stats = 25%float)
    /\ fst (TaskService.getStatistics (runCalls sampleEnv fourTasks))
       = Return (TaskService.mkStats 4 2 1 1 25)
    /\ fst (TaskService.getStatistics newWorld)
       = Return (TaskService.mkStats 0 0 0 0 0).
Proof.
  rewrite getStatistics_eq. cbv zeta. eexists. split; [reflexivity|].
  cbn [TaskService.total TaskService.pending TaskService.inProgress
       TaskService.done TaskService.completionRate].
  split_and!; try reflexivity.
  - unfold codeCompletionRate. destruct (0 <? size (store w))%nat; reflexivity.
  - intros Hlt. apply rates_agree. split; [apply count_le_size | exact Hlt].
  - intros -> ->. reflexivity.
Qed.

(** C5, counterexample. After 160 creations, 23 of them with status [done],
    the statistics have [total = 160], [done = 23] and a completion rate of
    14.37: the binary64 product is 1437.4999999999998, below the tie. The
    rate of the specification, 14.375 rounded half up, is 14.38. *)
Lemma completionRate_23_of_160 :
  let w := runCalls sampleEnv (sampleRun 23 160) in
  let stats := TaskService.mkStats 160 137 0 23 (Number_of_Z 1437 / 100)%float in
  fst (TaskService.getStatistics w) = Return stats
  /\ reachable sampleEnv w
  /\ specHundredths 23 160 = 1438
  /\ specCompletionRate 23 160 = (Number_of_Z 1438 / 100)%float
  /\ (TaskService.completionRate stats <? specCompletionRate 23 160)%float = true
  /\ TaskService.completionRate stats
     <> specCompletionRate (TaskService.done stats) (TaskService.total stats).
Proof.
  cbv zeta. split_and!.
  - vm_compute. reflexivity.
  - apply runCalls_reachable.
  - reflexivity.
  - reflexivity.
  - vm_compute. reflexivity.
  - cbn [TaskService.completionRate TaskService.done TaskService.total].
    intros H.
    assert (Hlt : ((Number_of_Z 1437 / 100)
                   <? specCompletionRate 23 160)%float = true)
      by (vm_compute; reflexivity).
    rewrite <- H in Hlt. vm_compute in Hlt. discriminate Hlt.
Qed.

(** * Further properties of the code *)

(** ** class Task *)

(** X1. [markAsDone], [markAsInProgress] and [markAsPending], written apart
    from [update], do what [update] does with the status alone; after each
    of them exactly the matching test among [isDone], [isInProgress] and
    [isPending] holds. *)
Theorem markAs_is_status_update E {Store} (this : Task.t) (w : World Store) :
  Task.markAsDone E this w
  = Task.update E (mkUpdate None None (Some TaskStatus.DONE)) this w
  /\ Task.markAsInProgress E this w
     = Task.update E (mkUpdate None None (Some TaskStatus.IN_PROGRESS)) this w
  /\ Task.markAsPending E this w
     = Task.update E (mkUpdate None None (Some TaskStatus.PENDING)) this w
  /\ (exists task w', Task.markAsDone E this w = (Return task, w')
        /\ Task.isDone task = true /\ Task.isInProgress task = false
        /\ Task.isPending task = false)
  /\ (exists task w', Task.markAsInProgress E this w = (Return task, w')
        /\ Task.isDone task = false /\ Task.isInProgress task = true
        /\ Task.isPending task = false)
  /\ (exists task w', Task.markAsPending E this w = (Return task, w')
        /\ Task.isDone task = false /\ Task.isInProgress task = false
        /\ Task.isPending task = true).
Proof.
  split_and!; try reflexivity; eexists _, _; split_and!; reflexivity.
Qed.

(** X2. The three status tests exclude one another, and one of them holds
    exactly when the status is one of the three enumerated values: on a task
    with any other status (the empty string, say) all three are false. *)
Theorem status_tests_partition (this : Task.t) :
  (Task.isDone this || Task.isInProgress this || Task.isPending this = true
   <-> enumerated (Task.status this))
  /\ (Task.isDone this && Task.isInProgress this = false)
  /\ (Task.isDone this && Task.isPending this = false)
  /\ (Task.isInProgress this && Task.isPending this = false).
Proof.
  unfold Task.isDone, Task.isInProgress, Task.isPending, enumerated,
    TaskStatus.DONE, TaskStatus.IN_PROGRESS, TaskStatus.PENDING.
  split_and!.
  - rewrite !orb_true_iff, !bool_decide_eq_true. tauto.
  - repeat case_bool_decide; try reflexivity. exfalso. congruence.
  - repeat case_bool_decide; try reflexivity. exfalso. congruence.
  - repeat case_bool_decide; try reflexivity. exfalso. congruence.
Qed.

Lemma assignedOpt_assoc a b c :
  Task.assignedOpt a (Task.assignedOpt b c)
  = Task.assignedOpt (Task.assignedOpt a b) c.
Proof. destruct a, b; reflexivity. Qed.

Lemma assigned_merge a b c :
  Task.assigned a (Task.assigned b c) = Task.assigned (Task.assignedOpt a b) c.
Proof. destruct a, b; reflexivity. Qed.

(** X3. Two updates in a row are one update with the merged partial (a field
    of the second wins over the first), stamped with the second reading of
    the clock; an update with the empty partial changes [updatedAt] and
    nothing else. *)
Theorem update_twice E {Store} (d1 d2 : UpdateTaskDTO) (this : Task.t)
    (w : World Store) :
  (task ← Task.update E d1 this; Task.update E d2 task) w
  = Task.update E (mergeUpdate d1 d2) this (snd (new_Date E w))
  /\ Task.update E (mkUpdate None None None) this w
     = (Return (Task.mk (Task.id this) (Task.title this) (Task.description this)
                  (Task.status this) (Task.createdAt this)
                  (clock E (clock_reads w))),
        mkWorld (store w) (uuid_calls w) (S (clock_reads w))).
Proof.
  split; [|reflexivity].
  unfold Task.update. js_run. cbn.
  rewrite !assignedOpt_assoc, assigned_merge. reflexivity.
Qed.

(** X4. The other round trip: for serialised data with a non-empty status,
    [fromJSON(data).toJSON()] is [data] again, field by field. *)
Theorem toJSON_fromJSON E {Store} (data : ITask) (w : World Store) :
  json_status data <> [] ->
  exists task w',
    Task.fromJSON E data w = (Return task, w')
    /\ Task.toJSON task = data
    /\ store w' = store w.
Proof.
  intros Hs. destruct data as [i t d s c u]. cbn in Hs.
  eexists _, _. split; [reflexivity|]. split; [|reflexivity].
  unfold Task.toJSON. cbn. destruct s; [congruence | reflexivity].
Qed.

(** X4 on the serialised first task. *)
Lemma toJSON_fromJSON_witness :
  exists task w',
    Task.fromJSON sampleEnv (Task.toJSON (firstTask sampleEnv)) newWorld
    = (Return task, w')
    /\ Task.toJSON task = Task.toJSON (firstTask sampleEnv)
    /\ store w' = store newWorld.
Proof.
  apply (toJSON_fromJSON sampleEnv (Task.toJSON (firstTask sampleEnv)) newWorld).
  discriminate.
Defined.

(** ** class InMemoryTaskRepository *)

(** X5. What [create] returns can be read back: [findById] of the new id
    returns the very task, [exists] says true, and the tasks under other ids
    are as before. The repository draws the id from [uuidv4()]. *)
Theorem create_then_findById E data w :
  exists task w',
    InMemoryTaskRepository.create E data w = (Return task, w')
    /\ Task.id task = uuidv4 E (uuid_calls w)
    /\ InMemoryTaskRepository.findById (Task.id task) w' = (Return (Some task), w')
    /\ InMemoryTaskRepository.exists_ (Task.id task) w' = (Return true, w')
    /\ (forall id, id <> Task.id task ->
        InMemoryTaskRepository.findById id w' = (Return (store w !! id), w')).
Proof.
  rewrite create_returns. cbv zeta. eexists _, _. split; [reflexivity|].
  cbn [Task.id]. split; [reflexivity|].
  unfold InMemoryTaskRepository.findById, InMemoryTaskRepository.exists_, gets.
  cbn [store]. rewrite lookup_insert_eq. split_and!.
  - reflexivity.
  - rewrite bool_decide_eq_true_2 by eauto. reflexivity.
  - intros id Hne. rewrite lookup_insert_ne by congruence. reflexivity.
Qed.

(** X6. [create] adds exactly one record when the id drawn is not in the
    store; if the id is already there the old record is replaced and the
    count stays as it was. *)
Theorem create_count E data w :
  let w' := snd (InMemoryTaskRepository.create E data w) in
  let id := uuidv4 E (uuid_calls w) in
  (store w !! id = None ->
   InMemoryTaskRepository.count w' = (Return (S (size (store w))), w'))
  /\ (is_Some (store w !! id) ->
      InMemoryTaskRepository.count w' = (Return (size (store w)), w')).
Proof.
  cbv zeta. rewrite create_returns. cbv zeta. cbn [snd Task.id].
  unfold InMemoryTaskRepository.count, gets. cbn [store]. split; intros H.
  - rewrite map_size_insert_None by exact H. reflexivity.
  - rewrite map_size_insert_Some by exact H. reflexivity.
Qed.

(** X7. [findByStatus] returns exactly the stored tasks whose status is the
    one asked for, in the order [findAll] lists them, and leaves the store as
    it is; [countByStatus] is the length of that list and never more than
    [count]. The status asked for is not checked: any string gives a list. *)
Theorem findByStatus_exact status w :
  exists tasks,
    InMemoryTaskRepository.findByStatus status w = (Return tasks, w)
    /\ (forall task,
          task ∈ tasks <->
          (exists id, store w !! id = Some task) /\ Task.status task = status)
    /\ sublist tasks (storedTasks w)
    /\ InMemoryTaskRepository.countByStatus status w = (Return (length tasks), w)
    /\ (length tasks <= size (store w))%nat.
Proof.
  eexists. split; [reflexivity|]. split_and!.
  - intros task. rewrite list_elem_of_filter, stored_tasks. tauto.
  - apply sublist_filter.
  - reflexivity.
  - apply count_le_size.
Qed.

(** X8. [findByDateRange] returns exactly the stored tasks created between
    the two dates, both ends included; with the ends in the wrong order it
    returns nothing. *)
Theorem findByDateRange_exact startDate endDate w :
  exists tasks,
    InMemoryTaskRepository.findByDateRange startDate endDate w = (Return tasks, w)
    /\ (forall task,
          task ∈ tasks <->
          (exists id, store w !! id = Some task)
          /\ startDate <= Task.createdAt task <= endDate)
    /\ (endDate < startDate -> tasks = []).
Proof.
  eexists. split; [reflexivity|]. split.
  - intros task. rewrite list_elem_of_filter, stored_tasks. tauto.
  - intros Hlt. induction ((map_to_list (store w)).*2) as [|task l IH];
      [reflexivity|].
    rewrite filter_cons. case_decide; [lia | exact IH].
Qed.

(** X9. Deleting is idempotent: after [delete(id)] a second [delete(id)]
    returns false and changes nothing, [exists(id)] is false and
    [findById(id)] is null; the count went down by one if the id was there
    and stayed the same if not. *)
Theorem delete_twice id w :
  let w' := snd (InMemoryTaskRepository.delete id w) in
  InMemoryTaskRepository.delete id w' = (Return false, w')
  /\ InMemoryTaskRepository.exists_ id w' = (Return false, w')
  /\ InMemoryTaskRepository.findById id w' = (Return None, w')
  /\ InMemoryTaskRepository.count w'
     = (Return (match store w !! id with
                | Some _ => Nat.pred (size (store w))
                | None => size (store w)
                end), w').
Proof.
  cbv zeta. rewrite !delete_eq.
  unfold InMemoryTaskRepository.exists_, InMemoryTaskRepository.findById,
    InMemoryTaskRepository.count, gets.
  destruct (store w !! id) as [task|] eqn:Hid; cbn [snd store].
  - rewrite lookup_delete_eq.
    rewrite bool_decide_eq_false_2 by (intros [? ?]; discriminate).
    rewrite map_size_delete_Some by eauto. split_and!; reflexivity.
  - rewrite Hid.
    rewrite bool_decide_eq_false_2 by (intros [? ?]; discriminate).
    split_and!; reflexivity.
Qed.

(** X10. After [clear] the repository is as new: the count and every
    [countByStatus] are 0, [findAll] is empty, no id exists or is found, and
    [update] and [delete] of any id report it missing. The identifiers and
    clock readings already drawn stay drawn. *)
Theorem clear_empties E w :
  let w' := snd (InMemoryTaskRepository.clear w) in
  fst (InMemoryTaskRepository.clear w) = Return tt
  /\ w' = mkWorld InMemoryTaskRepository.empty (uuid_calls w) (clock_reads w)
  /\ InMemoryTaskRepository.count w' = (Return 0%nat, w')
  /\ InMemoryTaskRepository.findAll w' = (Return [], w')
  /\ (forall status,
        InMemoryTaskRepository.countByStatus status w' = (Return 0%nat, w'))
  /\ (forall id data,
        InMemoryTaskRepository.findById id w' = (Return None, w')
        /\ InMemoryTaskRepository.exists_ id w' = (Return false, w')
        /\ InMemoryTaskRepository.update E id data w' = (Return None, w')
        /\ InMemoryTaskRepository.delete id w' = (Return false, w')).
Proof.
  cbv zeta. split_and!; try reflexivity.
  intros id data. rewrite update_eq, delete_eq. cbn [snd store InMemoryTaskRepository.clear].
  split_and!; reflexivity.
Qed.

(** X11. [findAll] lists exactly the stored tasks, as many as [count] says,
    and changes nothing. *)
Theorem findAll_exact w :
  exists tasks,
    InMemoryTaskRepository.findAll w = (Return tasks, w)
    /\ (forall task, task ∈ tasks <-> exists id, store w !! id = Some task)
    /\ InMemoryTaskRepository.count w = (Return (length tasks), w).
Proof.
  eexists. split; [reflexivity|]. split.
  - intros task. apply stored_tasks.
  - unfold InMemoryTaskRepository.count, gets.
    rewrite length_fmap, length_map_to_list. reflexivity.
Qed.

(** X12. [update] of a stored id never fails and does not validate: each
    field present in the partial is overwritten, each absent field kept, the
    [id] and [createdAt] stay, [updatedAt] is the clock reading taken; the
    result can be read back with [findById], the count and the tasks under
    other ids are unchanged. *)
Theorem update_stored E id data task w :
  store w !! id = Some task ->
  exists task' w',
    InMemoryTaskRepository.update E id data w = (Return (Some task'), w')
    /\ InMemoryTaskRepository.findById id w' = (Return (Some task'), w')
    /\ Task.id task' = Task.id task
    /\ Task.createdAt task' = Task.createdAt task
    /\ Task.updatedAt task' = clock E (clock_reads w)
    /\ Task.title task'
       = match update_title data with Some s => Some s | None => Task.title task end
    /\ Task.description task'
       = match update_description data with
         | Some s => Some s
         | None => Task.description task
         end
    /\ Task.status task'
       = match update_status data with Some s => s | None => Task.status task end
    /\ size (store w') = size (store w)
    /\ (forall id', id' <> id -> store w' !! id' = store w !! id').
Proof.
  intros Ht. rewrite update_eq, Ht. cbv zeta. eexists _, _.
  split; [reflexivity|].
  unfold InMemoryTaskRepository.findById, gets. cbn [store].
  rewrite lookup_insert_eq. split_and!; try reflexivity.
  - apply map_size_insert_Some. eauto.
  - intros id' Hne. apply lookup_insert_ne. congruence.
Qed.

(** X12 on the task of [oneTask], retitled. *)
Lemma update_stored_witness :
  exists task' w',
    InMemoryTaskRepository.update sampleEnv (sampleId 0)
      (mkUpdate (Some (js "Novo")) None None) (oneTask sampleEnv)
    = (Return (Some task'), w')
    /\ InMemoryTaskRepository.findById (sampleId 0) w' = (Return (Some task'), w')
    /\ Task.id task' = Task.id (firstTask sampleEnv)
    /\ Task.createdAt task' = Task.createdAt (firstTask sampleEnv)
    /\ Task.updatedAt task' = clock sampleEnv (clock_reads (oneTask sampleEnv))
    /\ Task.title task' = Some (js "Novo")
    /\ Task.description task' = Task.description (firstTask sampleEnv)
    /\ Task.status task' = Task.status (firstTask sampleEnv)
    /\ size (store w') = size (store (oneTask sampleEnv))
    /\ (forall id', id' <> sampleId 0 ->
        store w' !! id' = store (oneTask sampleEnv) !! id').
Proof.
  apply (update_stored sampleEnv (sampleId 0)
           (mkUpdate (Some (js "Novo")) None None) (firstTask sampleEnv)
           (oneTask sampleEnv)).
  rewrite oneTask_firstTask. apply lookup_singleton_eq.
Defined.

(** ** class TaskService *)

(** X13. The four reading methods never change the store, nor draw an
    identifier or a clock reading, whether they return or throw. *)
Theorem reads_change_nothing id status w :
  snd (TaskService.getAllTasks w) = w
  /\ snd (TaskService.getTaskById id w) = w
  /\ snd (TaskService.getTasksByStatus status w) = w
  /\ snd (TaskService.getStatistics w) = w.
Proof.
  split_and!; try reflexivity.
  - rewrite getTaskById_eq. destruct (isBlank id); [reflexivity|].
    destruct (store w !! id); reflexivity.
  - apply getTasksByStatus_world.
Qed.

Lemma thrown_update_cases E id data w e :
  errorOf (fst (TaskService.updateTask E id data w)) = Some e ->
  snd (TaskService.updateTask E id data w) = w
  /\ (e = mkTaskError TASK_NOT_FOUND 404 /\ isBlank id = false
      /\ store w !! id = None
      \/ statusCode e = 400 /\ code e <> TASK_NOT_FOUND).
Proof.
  rewrite updateTask_eq. destruct (isBlank id) eqn:Hid.
  { intros [= <-]. split; [reflexivity|]. right. split; [reflexivity | discriminate]. }
  destruct (updateVerdict data) as [c|] eqn:Hv.
  { intros [= <-]. split; [reflexivity|]. right. split; [reflexivity|].
    cbn. unfold updateVerdict in Hv.
    repeat match type of Hv with
      | (if ?b then _ else _) = _ => destruct b
      end; inversion Hv; discriminate. }
  destruct (store w !! id) as [task|] eqn:Ht; [discriminate|].
  intros [= <-]. split; [reflexivity|]. left. auto.
Qed.

Lemma createVerdict_not_found data :
  createVerdict data <> Some TASK_NOT_FOUND.
Proof.
  unfold createVerdict.
  repeat match goal with
    | |- (if ?b then _ else _) <> _ => destruct b
    end; discriminate.
Qed.

Lemma thrown_cases E c w e :
  thrown E c w = Some e ->
  after E c w = w
  /\ (e = mkTaskError TASK_NOT_FOUND 404
      /\ (exists id, target c = Some id /\ isBlank id = false
                     /\ store w !! id = None)
      \/ statusCode e = 400 /\ code e <> TASK_NOT_FOUND).
Proof.
  destruct c as [data| |id|status|id data|id|id|id|id|]; cbn [thrown after target].
  - rewrite createTask_verdict.
    pose proof (createVerdict_not_found data) as Hnf.
    destruct (createVerdict data) as [c|]; [|rewrite create_returns; discriminate].
    intros [= <-]. split; [reflexivity|]. right. split; [reflexivity|].
    cbn. congruence.
  - discriminate.
  - rewrite getTaskById_eq. destruct (isBlank id) eqn:Hid.
    { intros [= <-]. split; [reflexivity|]. right. split; [reflexivity | discriminate]. }
    destruct (store w !! id) eqn:Ht; [discriminate|].
    intros [= <-]. split; [reflexivity|]. left. split; [reflexivity | eauto].
  - unfold TaskService.getTasksByStatus, TaskService.validateStatus. js_run.
    destruct (negb _); [|discriminate].
    intros [= <-]. split; [reflexivity|]. right. split; [reflexivity | discriminate].
  - intros He. destruct (thrown_update_cases E id data w e He) as [Hw H].
    split; [exact Hw|]. destruct H as [(-> & Hid & Ht) | H]; [left | right; exact H].
    split; [reflexivity | eauto].
  - rewrite deleteTask_eq. destruct (isBlank id) eqn:Hid.
    { intros [= <-]. split; [reflexivity|]. right. split; [reflexivity | discriminate]. }
    destruct (store w !! id) eqn:Ht; [discriminate|].
    intros [= <-]. split; [reflexivity|]. left. split; [reflexivity | eauto].
  - intros He. destruct (thrown_update_cases E id _ w e He) as [Hw H].
    split; [exact Hw|]. destruct H as [(-> & Hid & Ht) | H]; [left | right; exact H].
    split; [reflexivity | eauto].
  - intros He. destruct (thrown_update_cases E id _ w e He) as [Hw H].
    split; [exact Hw|]. destruct H as [(-> & Hid & Ht) | H]; [left | right; exact H].
    split; [reflexivity | eauto].
  - intros He. destruct (thrown_update_cases E id _ w e He) as [Hw H].
    split; [exact Hw|]. destruct H as [(-> & Hid & Ht) | H]; [left | right; exact H].
    split; [reflexivity | eauto].
  - discriminate.
Qed.

(** X14. A call of the service that throws has changed nothing: the store
    and the counts of identifiers and clock readings drawn are as before the
    call. Every check comes before the first write. *)
Theorem failed_call_changes_nothing E c w e :
  thrown E c w = Some e -> after E c w = w.
Proof. intros He. apply (thrown_cases E c w e He). Qed.

(** X14 on an update of an id that is not there. *)
Lemma failed_call_changes_nothing_witness :
  after sampleEnv (UpdateTask (js "id-inexistente") (mkUpdate None None None))
    (oneTask sampleEnv)
  = oneTask sampleEnv.
Proof.
  apply (failed_call_changes_nothing sampleEnv
           (UpdateTask (js "id-inexistente") (mkUpdate None None None))
           (oneTask sampleEnv) (mkTaskError TASK_NOT_FOUND 404)).
  reflexivity.
Defined.

(** X15. The errors of the service come in two classes: TASK_NOT_FOUND
    always carries status 404 and is thrown only by a call about one task
    whose id is not blank and not in the store; every other error carries
    status 400. [getAllTasks] and [getStatistics] never throw. *)
Theorem error_classes E c w e :
  thrown E c w = Some e ->
  (code e = TASK_NOT_FOUND <-> statusCode e = 404)
  /\ (code e <> TASK_NOT_FOUND <-> statusCode e = 400)
  /\ (code e = TASK_NOT_FOUND ->
      exists id, target c = Some id /\ isBlank id = false /\ store w !! id = None)
  /\ c <> GetAllTasks /\ c <> GetStatistics.
Proof.
  intros He. destruct (thrown_cases E c w e He) as [_ [(-> & Hid) | (Hs & Hc)]].
  - cbn. split_and!; try tauto; try (intros ->; discriminate He).
    split; [intros H; exfalso; apply H; reflexivity | discriminate].
  - rewrite Hs. split_and!; try tauto; try (intros ->; discriminate He).
    split; [intros H; exfalso; apply Hc, H | discriminate].
Qed.

(** X15 on a deletion of an id that is not there. *)
Lemma error_classes_witness :
  let e := mkTaskError TASK_NOT_FOUND 404 in
  let c := DeleteTask (js "id-inexistente") in
  (code e = TASK_NOT_FOUND <-> statusCode e = 404)
  /\ (code e <> TASK_NOT_FOUND <-> statusCode e = 400)
  /\ (code e = TASK_NOT_FOUND ->
      exists id, target c = Some id /\ isBlank id = false
                 /\ store newWorld !! id = None)
  /\ c <> GetAllTasks /\ c <> GetStatistics.
Proof.
  apply (error_classes sampleEnv (DeleteTask (js "id-inexistente")) newWorld
           (mkTaskError TASK_NOT_FOUND 404)).
  reflexivity.
Defined.

(** X16. What [createTask] returns can be fetched: as [uuidv4()] never gives
    a blank identifier, [getTaskById] of the new task's id returns the same
    task, field by field, and changes nothing. *)
Theorem createTask_then_getTaskById E data w task w' :
  uuidsNotBlank E ->
  TaskService.createTask E data w = (Return task, w') ->
  TaskService.getTaskById (Task.id task) w' = (Return task, w').
Proof.
  intros Huuid. rewrite createTask_verdict.
  destruct (createVerdict data); [discriminate|].
  rewrite create_returns. cbv zeta. intros [= <- <-].
  rewrite getTaskById_eq. cbn [Task.id store].
  rewrite Huuid, lookup_insert_eq. reflexivity.
Qed.

(** X16 on the first task. *)
Lemma createTask_then_getTaskById_witness :
  TaskService.getTaskById (Task.id (firstTask sampleEnv)) (oneTask sampleEnv)
  = (Return (firstTask sampleEnv), oneTask sampleEnv).
Proof.
  apply (createTask_then_getTaskById sampleEnv (sampleCreate None) newWorld
           (firstTask sampleEnv) (oneTask sampleEnv)).
  - exact sampleId_not_blank.
  - reflexivity.
Defined.

Ltac update_verdict_cases data :=
  unfold updateVerdict;
  destruct (TaskService.trimmedLength0 (update_title data)),
    (truthy (update_title data)
     && (200 <? TaskService.strLength (update_title data))%nat),
    (TaskService.trimmedLength0 (update_description data)),
    (truthy (update_description data)
     && (2000 <? TaskService.strLength (update_description data))%nat),
    (TaskService.badStatus (update_status data)).

(** X17. [updateTask] checks in a fixed order and reports the first failure:
    INVALID_ID for a blank id; then INVALID_TITLE for a title that is given
    and blank (the empty string included); TITLE_TOO_LONG for a non-empty
    title of more than 200 code units; INVALID_DESCRIPTION and
    DESCRIPTION_TOO_LONG likewise with 2000; INVALID_STATUS for a non-empty
    status that is not enumerated; and only then TASK_NOT_FOUND for an id
    that is not in the store. So an invalid partial for a missing id is a
    400, not a 404. *)
Theorem updateTask_first_failing_rule E id data w :
  let r := fst (TaskService.updateTask E id data w) in
  let idOk := isBlank id = false in
  let titleBlank := TaskService.trimmedLength0 (update_title data) = true in
  let titleLong :=
    truthy (update_title data)
    && (200 <? TaskService.strLength (update_title data))%nat = true in
  let descriptionBlank :=
    TaskService.trimmedLength0 (update_description data) = true in
  let descriptionLong :=
    truthy (update_description data)
    && (2000 <? TaskService.strLength (update_description data))%nat = true in
  let statusRefused :=
    exists s, update_status data = Some s /\ s <> [] /\ ~ enumerated s in
  (failsWith r INVALID_ID <-> ~ idOk)
  /\ (failsWith r INVALID_TITLE <-> idOk /\ titleBlank)
  /\ (failsWith r TITLE_TOO_LONG <-> idOk /\ ~ titleBlank /\ titleLong)
  /\ (failsWith r INVALID_DESCRIPTION <->
      idOk /\ ~ titleBlank /\ ~ titleLong /\ descriptionBlank)
  /\ (failsWith r DESCRIPTION_TOO_LONG <->
      idOk /\ ~ titleBlank /\ ~ titleLong /\ ~ descriptionBlank
      /\ descriptionLong)
  /\ (failsWith r INVALID_STATUS <->
      idOk /\ ~ titleBlank /\ ~ titleLong /\ ~ descriptionBlank
      /\ ~ descriptionLong /\ statusRefused)
  /\ (failsWith r TASK_NOT_FOUND <->
      idOk /\ ~ titleBlank /\ ~ titleLong /\ ~ descriptionBlank
      /\ ~ descriptionLong /\ ~ statusRefused /\ store w !! id = None)
  /\ ((exists task, r = Return task) <->
      idOk /\ ~ titleBlank /\ ~ titleLong /\ ~ descriptionBlank
      /\ ~ descriptionLong /\ ~ statusRefused /\ is_Some (store w !! id)).
Proof.
  cbv zeta. rewrite <- badStatus_spec. rewrite updateTask_eq.
  destruct (isBlank id); update_verdict_cases data;
    destruct (store w !! id) as [task|]; cbn [fst]; unfold failsWith.
  all: split_and!.
  all: split;
    [ intros [x Hx]; try discriminate Hx; split_and?;
      try reflexivity; try discriminate; eauto
    | intros H; try (eexists; reflexivity);
      repeat match goal with
        | H : _ /\ _ |- _ => destruct H
        | H : is_Some None |- _ => destruct H; discriminate
        end;
      try discriminate; try congruence;
      try (match goal with H : ~ _ |- _ => exfalso; apply H; reflexivity end) ].
Qed.

Lemma createVerdict_texts data :
  createVerdict data = None ->
  textWithin 200 (create_title data) /\ textWithin 2000 (create_description data).
Proof.
  unfold createVerdict, textWithin, missingOrBlank, TaskService.strLength.
  destruct (create_title data) as [t|], (create_description data) as [d|];
    try discriminate;
    try (destruct (isBlank t); discriminate).
  - destruct (isBlank t) eqn:Ht; [discriminate|].
    destruct (200 <? length t)%nat eqn:Htl; [discriminate|].
    destruct (isBlank d) eqn:Hd; [discriminate|].
    destruct (2000 <? length d)%nat eqn:Hdl; [discriminate|].
    intros _. apply Nat.ltb_ge in Htl, Hdl. split; eexists; eauto.
  - destruct (isBlank t); [discriminate|].
    destruct (200 <? length t)%nat; discriminate.
Qed.

Lemma updateVerdict_text limit v old :
  TaskService.trimmedLength0 v = false ->
  truthy v && (limit <? TaskService.strLength v)%nat = false ->
  textWithin limit old -> textWithin limit (Task.assignedOpt v old).
Proof.
  destruct v as [s|]; cbn [Task.assignedOpt TaskService.trimmedLength0]; [|auto].
  intros Hb Hl _. exists s. split; [reflexivity|]. split; [exact Hb|].
  destruct s as [|c s]; [discriminate Hb|].
  cbn [truthy andb TaskService.strLength] in Hl.
  apply Nat.ltb_ge in Hl. exact Hl.
Qed.

Lemma allTextsValid_after E c w :
  allTextsValid w -> allTextsValid (after E c w).
Proof.
  intros Hw.
  assert (Hupd : forall id data,
            allTextsValid (snd (TaskService.updateTask E id data w))).
  { intros id data. rewrite updateTask_eq.
    destruct (isBlank id); [exact Hw|].
    destruct (updateVerdict data) eqn:Hv; [exact Hw|].
    destruct (store w !! id) as [task|] eqn:Ht; [|exact Hw].
    intros id' task'. cbn [snd store]. rewrite lookup_insert.
    case_decide; [|apply Hw]. intros [= <-]. cbn [updated Task.title Task.description].
    destruct (Hw _ _ Ht) as [Htitle Hdesc].
    unfold updateVerdict in Hv.
    destruct (TaskService.trimmedLength0 (update_title data)) eqn:H1;
      [discriminate|].
    destruct (truthy (update_title data) && _) eqn:H2; [discriminate|].
    destruct (TaskService.trimmedLength0 (update_description data)) eqn:H3;
      [discriminate|].
    destruct (truthy (update_description data) && _) eqn:H4; [discriminate|].
    split; apply updateVerdict_text; assumption. }
  destruct c as [data| |id|status|id data|id|id|id|id|]; cbn [after].
  - rewrite createTask_verdict.
    destruct (createVerdict data) eqn:Hv; [exact Hw|].
    rewrite create_returns. cbv zeta. intros id' task'. cbn [snd store Task.id].
    rewrite lookup_insert. case_decide; [|apply Hw]. intros [= <-].
    exact (createVerdict_texts data Hv).
  - exact Hw.
  - rewrite getTaskById_eq. destruct (isBlank id); [exact Hw|].
    destruct (store w !! id); exact Hw.
  - rewrite getTasksByStatus_world. exact Hw.
  - apply Hupd.
  - rewrite deleteTask_eq. destruct (isBlank id); [exact Hw|].
    destruct (store w !! id); [|exact Hw].
    intros id' task'. cbn [snd store]. rewrite lookup_delete.
    case_decide; [discriminate|]. apply Hw.
  - apply Hupd.
  - apply Hupd.
  - apply Hupd.
  - exact Hw.
Qed.

(** X18. In every store the service has built, each task has a title and a
    description that are present, not blank, and of at most 200 and 2000
    code units: creation requires them and no update can blank or overgrow
    them. *)
Theorem texts_stay_valid E w id task :
  reachable E w -> store w !! id = Some task ->
  (exists title, Task.title task = Some title
                 /\ isBlank title = false /\ (length title <= 200)%nat)
  /\ (exists description, Task.description task = Some description
                          /\ isBlank description = false
                          /\ (length description <= 2000)%nat).
Proof.
  intros Hr. revert id task. change (allTextsValid w).
  induction Hr as [|c w Hr IH].
  - intros id task Hl. discriminate Hl.
  - apply allTextsValid_after, IH.
Qed.

(** X18 on the first task, retitled. *)
Lemma texts_stay_valid_witness :
  let w := after sampleEnv
             (UpdateTask (sampleId 0) (mkUpdate (Some (js "Novo")) None None))
             (oneTask sampleEnv) in
  let task := updated (mkUpdate (Some (js "Novo")) None None)
                (clock sampleEnv 2) (firstTask sampleEnv) in
  (exists title, Task.title task = Some title
                 /\ isBlank title = false /\ (length title <= 200)%nat)
  /\ (exists description, Task.description task = Some description
                          /\ isBlank description = false
                          /\ (length description <= 2000)%nat).
Proof.
  apply (texts_stay_valid sampleEnv
           (after sampleEnv
              (UpdateTask (sampleId 0) (mkUpdate (Some (js "Novo")) None None))
              (oneTask sampleEnv))
           (sampleId 0)).
  - apply reachable_call, reachable_call, reachable_new.
  - cbn [after]. rewrite updateTask_eq, oneTask_firstTask. cbn [store].
    change (uuidv4 sampleEnv 0) with (sampleId 0).
    rewrite sampleId_not_blank, lookup_singleton_eq. cbn [snd store].
    apply lookup_insert_eq.
Defined.

(** X19. Take any run of calls whose text and status arguments are strings
    or [undefined] and in which the status given to every [updateTask] is
    [undefined] or a non-empty string. Then the status of every stored task
    is one of the three enumerated values: a non-empty string passes
    [validateUpdateData] only if [isValidStatus] accepts it, the constructor
    turns a missing or empty status into [pending], and the [markTaskAs...]
    methods set enumerated values. (A status that is falsy without being
    [undefined] is not checked; of those, strings have only the empty one.) *)
Theorem statuses_stay_enumerated E cs id task :
  Forall statusAbsentOrNonEmpty cs ->
  store (runCalls E cs) !! id = Some task ->
  enumerated (Task.status task).
Proof.
  intros Hcs. apply (allEnumerated_runCalls E cs).
  eapply Forall_impl; [exact Hcs|].
  intros [data| |i|s|i data|i|i|i|i|]; cbn; try tauto.
  intros [H | (c & s & H)]; rewrite H; discriminate.
Qed.

(** X19 on the four tasks of the statistics test, the first marked done by
    an update. *)
Lemma statuses_stay_enumerated_witness :
  let cs := fourTasks
            ++ [UpdateTask (sampleId 0)
                  (mkUpdate None None (Some TaskStatus.DONE))] in
  let task := updated (mkUpdate None None (Some TaskStatus.DONE))
                (clock sampleEnv 8) (firstTask sampleEnv) in
  enumerated (Task.status task).
Proof.
  apply (statuses_stay_enumerated sampleEnv
           (fourTasks
            ++ [UpdateTask (sampleId 0)
                  (mkUpdate None None (Some TaskStatus.DONE))])
           (sampleId 0)).
  - apply Forall_app. split; [repeat constructor|].
    constructor; [|constructor]. right. eexists _, _. reflexivity.
  - vm_compute. reflexivity.
Defined.

(** X20. [getTasksByStatus] refuses, with INVALID_STATUS and without
    touching anything, every status that is not one of the three enumerated
    strings (the empty string too: this check is not a truthiness test); for
    an enumerated status it returns exactly the stored tasks that have it. *)
Theorem getTasksByStatus_exact status w :
  (~ enumerated status ->
   TaskService.getTasksByStatus status w
   = (Throw (mkTaskError INVALID_STATUS 400), w))
  /\ (enumerated status ->
      exists tasks,
        TaskService.getTasksByStatus status w = (Return tasks, w)
        /\ forall task,
             task ∈ tasks <->
             (exists id, store w !! id = Some task) /\ Task.status task = status).
Proof.
  unfold TaskService.getTasksByStatus, TaskService.validateStatus. js_run.
  split; intros Hs.
  - rewrite <- isValidStatus_enumerated in Hs.
    destruct (TaskService.isValidStatus status); [congruence | reflexivity].
  - apply isValidStatus_enumerated in Hs. rewrite Hs. cbn.
    eexists. split; [reflexivity|].
    intros task. rewrite list_elem_of_filter, stored_tasks. tauto.
Qed.

Lemma keysDrawn_after E c w : keysDrawn E w -> keysDrawn E (after E c w).
Proof.
  intros Hw.
  destruct (after_cases E c w)
    as [-> | [(data & ->) | [(id & data & task & Ht & ->) | (id & ->)]]].
  - exact Hw.
  - intros id' task'. cbn [store uuid_calls]. rewrite lookup_insert.
    case_decide as Hid.
    + intros _. exists (uuid_calls w). split; [lia | congruence].
    + intros Hl. destruct (Hw _ _ Hl) as (n & Hn & ->). exists n. split; [lia | reflexivity].
  - intros id' task'. cbn [store uuid_calls]. rewrite lookup_insert.
    case_decide as Hid.
    + intros _. subst id'. exact (Hw _ _ Ht).
    + apply Hw.
  - intros id' task'. cbn [store uuid_calls]. rewrite lookup_delete.
    case_decide; [discriminate | apply Hw].
Qed.

Lemma reachable_keysDrawn E w : reachable E w -> keysDrawn E w.
Proof.
  induction 1 as [|c w Hr IH].
  - intros id task Hl. discriminate Hl.
  - apply keysDrawn_after, IH.
Qed.

(** X21. If [uuidv4()] never repeats an identifier, then in a store the
    service has built a [createTask] that returns has stored the task under
    an id no stored task had: the count grows by exactly one and every task
    stored before is still there, unchanged. *)
Theorem createTask_adds_one E data w task w' :
  uuidsDistinct E -> reachable E w ->
  TaskService.createTask E data w = (Return task, w') ->
  store w !! Task.id task = None
  /\ store w' !! Task.id task = Some task
  /\ size (store w') = S (size (store w))
  /\ (forall id other, store w !! id = Some other -> store w' !! id = Some other).
Proof.
  intros Hinj Hr. rewrite createTask_verdict.
  destruct (createVerdict data); [discriminate|].
  rewrite create_returns. cbv zeta. intros [= <- <-]. cbn [Task.id store].
  assert (Hfresh : store w !! uuidv4 E (uuid_calls w) = None).
  { destruct (store w !! uuidv4 E (uuid_calls w)) as [other|] eqn:Ho;
      [|reflexivity].
    destruct (reachable_keysDrawn E w Hr _ _ Ho) as (n & Hn & Heq).
    apply Hinj in Heq. lia. }
  split_and!.
  - exact Hfresh.
  - apply lookup_insert_eq.
  - apply map_size_insert_None, Hfresh.
  - intros id other Ho. rewrite lookup_insert_ne; [exact Ho|]. congruence.
Qed.

Lemma tallyId_inj : uuidsDistinct tallyEnv.
Proof.
  intros i j H. change (tallyId i = tallyId j) in H. unfold tallyId in H.
  apply app_inv_head in H. apply (f_equal length) in H.
  rewrite !repeat_length in H. exact H.
Qed.

(** X21 on the first creation, with identifiers that never repeat. *)
Lemma createTask_adds_one_witness :
  let task := firstTask tallyEnv in
  let w' := oneTask tallyEnv in
  store newWorld !! Task.id task = None
  /\ store w' !! Task.id task = Some task
  /\ size (store w') = S (size (store newWorld))
  /\ (forall id other,
        store newWorld !! id = Some other -> store w' !! id = Some other).
Proof.
  apply (createTask_adds_one tallyEnv (sampleCreate None) newWorld
           (firstTask tallyEnv) (oneTask tallyEnv)).
  - exact tallyId_inj.
  - apply reachable_new.
  - reflexivity.
Defined.

Lemma ids_are_keys (l : list (jsstring * Task.t)) :
  Forall (fun p => Task.id p.2 = p.1) l -> Task.id <$> l.*2 = l.*1.
Proof.
  induction 1 as [|p l Hp _ IH]; [reflexivity|].
  cbn. rewrite Hp. f_equal. exact IH.
Qed.

(** X22. In a store the service has built, [getAllTasks] lists every stored
    task once: the ids in the list are pairwise distinct, each task sits
    under its own id, and the list is as long as [count] says. *)
Theorem getAllTasks_distinct_ids E w :
  reachable E w ->
  exists tasks,
    TaskService.getAllTasks w = (Return tasks, w)
    /\ NoDup (Task.id <$> tasks)
    /\ (forall task, task ∈ tasks <-> store w !! Task.id task = Some task)
    /\ length tasks = size (store w).
Proof.
  intros Hr. pose proof (reachable_wellFormed E w Hr) as Hw.
  eexists. split; [reflexivity|]. split_and!.
  - rewrite ids_are_keys; [apply NoDup_fst_map_to_list|].
    apply Forall_forall. intros [id task] Hin.
    apply elem_of_map_to_list in Hin. apply (Hw id task Hin).
  - intros task. rewrite stored_tasks. split.
    + intros [id Hid]. destruct (Hw id task Hid) as [-> _]. exact Hid.
    + eauto.
  - rewrite length_fmap, length_map_to_list. reflexivity.
Qed.

(** X22 on the four tasks of the statistics test. *)
Lemma getAllTasks_distinct_ids_witness :
  exists tasks,
    TaskService.getAllTasks (runCalls sampleEnv fourTasks)
    = (Return tasks, runCalls sampleEnv fourTasks)
    /\ NoDup (Task.id <$> tasks)
    /\ (forall task,
          task ∈ tasks <->
          store (runCalls sampleEnv fourTasks) !! Task.id task = Some task)
    /\ length tasks = size (store (runCalls sampleEnv fourTasks)).
Proof.
  apply (getAllTasks_distinct_ids sampleEnv (runCalls sampleEnv fourTasks)).
  apply runCalls_reachable.
Defined.

(** X23. A [deleteTask] that returns has removed exactly the task asked
    for: the id was stored and is not any more, the count is one less, the
    tasks under other ids are untouched, and a second [deleteTask] of the
    same id fails with TASK_NOT_FOUND. *)
Theorem deleteTask_removes_one id w w' :
  TaskService.deleteTask id w = (Return tt, w') ->
  is_Some (store w !! id)
  /\ store w' !! id = None
  /\ S (size (store w')) = size (store w)
  /\ (forall id', id' <> id -> store w' !! id' = store w !! id')
  /\ TaskService.deleteTask id w' = (Throw (mkTaskError TASK_NOT_FOUND 404), w').
Proof.
  rewrite deleteTask_eq. destruct (isBlank id) eqn:Hid; [discriminate|].
  destruct (store w !! id) as [task|] eqn:Ht; [|discriminate].
  intros [= <-]. rewrite deleteTask_eq, Hid. cbn [store].
  rewrite lookup_delete_eq. split_and!; try reflexivity.
  - eauto.
  - rewrite map_size_delete_Some by eauto.
    assert (size (store w) <> 0%nat).
    { apply map_size_non_empty_iff. intros Hm. rewrite Hm in Ht. discriminate Ht. }
    lia.
  - intros id' Hne. apply lookup_delete_ne. congruence.
Qed.

(** X23 on the first task. *)
Lemma deleteTask_removes_one_witness :
  let w := oneTask sampleEnv in
  let w' := mkWorld (base.delete (sampleId 0) (store w)) 1 2 in
  is_Some (store w !! sampleId 0)
  /\ store w' !! sampleId 0 = None
  /\ S (size (store w')) = size (store w)
  /\ (forall id', id' <> sampleId 0 -> store w' !! id' = store w !! id')
  /\ TaskService.deleteTask (sampleId 0) w'
     = (Throw (mkTaskError TASK_NOT_FOUND 404), w').
Proof.
  apply (deleteTask_removes_one (sampleId 0) (oneTask sampleEnv)
           (mkWorld (base.delete (sampleId 0) (store (oneTask sampleEnv))) 1 2)).
  rewrite deleteTask_eq, sampleId_not_blank, oneTask_firstTask. cbn [store].
  change (uuidv4 sampleEnv 0) with (sampleId 0).
  rewrite lookup_singleton_eq. reflexivity.
Defined.

Lemma count_partition_rest (l : list Task.t) :
  length l =
  (length (filter (fun task => Task.status task = TaskStatus.PENDING) l)
   + length (filter (fun task => Task.status task = TaskStatus.IN_PROGRESS) l)
   + length (filter (fun task => Task.status task = TaskStatus.DONE) l)
   + length (filter (fun task =>
                       TaskService.isValidStatus (Task.status task) = false) l))%nat.
Proof.
  induction l as [|task l IH]; [reflexivity|].
  rewrite !filter_cons. cbn [length]. rewrite IH.
  destruct (TaskService.isValidStatus (Task.status task)) eqn:Hv.
  - apply isValidStatus_enumerated in Hv.
    destruct Hv as [Hs | [Hs | Hs]]; rewrite Hs;
      repeat case_decide; try discriminate; try congruence; cbn [length]; lia.
  - assert (Hn : ~ enumerated (Task.status task))
      by (rewrite <- isValidStatus_enumerated; congruence).
    unfold enumerated in Hn.
    repeat case_decide; try tauto; try congruence; cbn [length]; lia.
Qed.

(** X24. The statistics agree with the lists: [total] is the length of
    [getAllTasks] and each counter the length of [getTasksByStatus] for its
    status. The three counters never add up to more than [total], and they
    add up to [total] exactly when every stored status is enumerated. *)
Theorem statistics_match_lists w :
  exists stats,
    TaskService.getStatistics w = (Return stats, w)
    /\ fst (TaskService.getAllTasks w)
       = Return (storedTasks w)
    /\ TaskService.total stats = length (storedTasks w)
    /\ (forall status tasks,
          fst (TaskService.getTasksByStatus status w) = Return tasks ->
          (status = TaskStatus.PENDING -> TaskService.pending stats = length tasks)
          /\ (status = TaskStatus.IN_PROGRESS ->
              TaskService.inProgress stats = length tasks)
          /\ (status = TaskStatus.DONE -> TaskService.done stats = length tasks))
    /\ (TaskService.pending stats + TaskService.inProgress stats
        + TaskService.done stats <= TaskService.total stats)%nat
    /\ ((TaskService.pending stats + TaskService.inProgress stats
         + TaskService.done stats)%nat = TaskService.total stats
        <-> allEnumerated w).
Proof.
  rewrite getStatistics_eq. cbv zeta. eexists. split; [reflexivity|].
  cbn [TaskService.total TaskService.pending TaskService.inProgress
       TaskService.done].
  pose proof (count_partition_rest (map_to_list (store w)).*2) as Hsum.
  rewrite length_fmap, length_map_to_list in Hsum at 1.
  split_and!.
  - reflexivity.
  - unfold storedTasks. rewrite length_fmap, length_map_to_list. reflexivity.
  - intros status tasks.
    unfold TaskService.getTasksByStatus, TaskService.validateStatus. js_run.
    destruct (TaskService.isValidStatus status); cbn; [|discriminate].
    intros [= <-]. split_and!; intros ->; reflexivity.
  - lia.
  - split.
    + intros Heq id task Hid. apply isValidStatus_enumerated.
      destruct (TaskService.isValidStatus (Task.status task)) eqn:Hv;
        [reflexivity|].
      assert (Hin : task ∈ filter
                (fun task => TaskService.isValidStatus (Task.status task) = false)
                (map_to_list (store w)).*2).
      { apply list_elem_of_filter. split; [exact Hv|]. apply stored_tasks. eauto. }
      apply list_elem_of_In, in_split in Hin as (l1 & l2 & Hf).
      rewrite Hf, length_app in Hsum. cbn [length] in Hsum. lia.
    + intros Hw. symmetry.
      rewrite <- length_map_to_list, <- (length_fmap snd).
      apply count_partition. apply Forall_forall. intros task Hin.
      apply stored_tasks in Hin as [id Hid]. exact (Hw id task Hid).
Qed.

(** ** utils/index.ts *)

Lemma test_Forall2 regex s :
  Utils.test regex s = true <->
  Forall2 (fun k c => Utils.inClass k c = true) regex s.
Proof.
  revert s. induction regex as [|k regex IH]; intros [|c s]; cbn.
  - split; [constructor | reflexivity].
  - split; [discriminate | inversion 1].
  - split; [discriminate | inversion 1].
  - rewrite andb_true_iff, IH. split.
    + intros [Hk Hs]. constructor; assumption.
    + inversion 1; subst. auto.
Qed.

Lemma printable_not_whiteSpace c :
  (33 <= c <= 159)%N -> isWhiteSpace c = false.
Proof.
  intros Hc. unfold isWhiteSpace.
  repeat match goal with
    | |- context [(?a <=? ?b)%N] =>
        destruct (N.leb_spec a b); try (exfalso; lia)
    | |- context [(?a =? ?b)%N] =>
        destruct (N.eqb_spec a b); try (exfalso; lia)
    end.
  all: reflexivity.
Qed.

Lemma inClass_not_whiteSpace k c :
  Utils.inClass k c = true -> isWhiteSpace c = false.
Proof.
  intros H. apply printable_not_whiteSpace.
  destruct k; cbn [Utils.inClass] in H; unfold Utils.isHex, Utils.isDigit in H;
    repeat match goal with
      | H : _ && _ = true |- _ => apply andb_true_iff in H as [? ?]
      | H : _ || _ = true |- _ => apply orb_true_iff in H as [H | H]
      | H : (_ <=? _)%N = true |- _ => apply N.leb_le in H
      | H : (_ =? _)%N = true |- _ => apply N.eqb_eq in H
      end; lia.
Qed.

(** X25. A string [isValidUUID] accepts has 36 code units with hyphens at
    positions 8, 13, 18 and 23 and no white space, so [validateId] of the
    service accepts it too; a string of any other length is refused. *)
Theorem isValidUUID_shape id w :
  Utils.isValidUUID id = true ->
  length id = 36%nat
  /\ id !! 8%nat = Some 45%N /\ id !! 13%nat = Some 45%N
  /\ id !! 18%nat = Some 45%N /\ id !! 23%nat = Some 45%N
  /\ Forall (fun c => isWhiteSpace c = false) id
  /\ TaskService.validateId id w = (Return tt, w).
Proof.
  unfold Utils.isValidUUID. rewrite test_Forall2. intros H.
  assert (Hlen : length id = 36%nat)
    by (rewrite <- (Forall2_length _ _ _ H); reflexivity).
  assert (Hhy : forall i, Utils.uuidRegex !! i = Some Utils.Hyphen ->
                          id !! i = Some 45%N).
  { intros i Hi. destruct (Forall2_lookup_l _ _ _ _ _ H Hi) as (c & Hc & Hk).
    cbn in Hk. apply N.eqb_eq in Hk. congruence. }
  assert (Hws : Forall (fun c => isWhiteSpace c = false) id).
  { clear Hlen Hhy. induction H as [|k c regex s Hk _ IH]; constructor;
      [exact (inClass_not_whiteSpace k c Hk) | exact IH]. }
  split_and!; try (apply Hhy; reflexivity); [exact Hlen | exact Hws |].
  rewrite validateId_eq, isBlank_forallb.
  destruct id as [|c s]; [discriminate Hlen|].
  apply Forall_cons in Hws as [Hc _]. cbn [forallb]. rewrite Hc. reflexivity.
Qed.

(** X25 on a version-4 identifier with upper-case digits. *)
Lemma isValidUUID_shape_witness :
  let id := js "3F2504E0-4f89-41D3-9a0c-0305E82C3301" in
  length id = 36%nat
  /\ id !! 8%nat = Some 45%N /\ id !! 13%nat = Some 45%N
  /\ id !! 18%nat = Some 45%N /\ id !! 23%nat = Some 45%N
  /\ Forall (fun c => isWhiteSpace c = false) id
  /\ TaskService.validateId id newWorld = (Return tt, newWorld).
Proof.
  apply (isValidUUID_shape (js "3F2504E0-4f89-41D3-9a0c-0305E82C3301") newWorld).
  vm_compute. reflexivity.
Defined.

Lemma trimStart_split s :
  exists p, s = p ++ trimStart s /\ forallb isWhiteSpace p = true.
Proof.
  induction s as [|c s (p & Hp & Hws)]; [exists []; auto|].
  cbn [trimStart]. destruct (isWhiteSpace c) eqn:Hc.
  - exists (c :: p). cbn. rewrite Hc, Hws. split; [congruence | reflexivity].
  - exists []. auto.
Qed.

Lemma trimStart_tight s : startsTight (trimStart s).
Proof.
  induction s as [|c s IH]; [exact I|].
  cbn [trimStart]. destruct (isWhiteSpace c) eqn:Hc; [exact IH | exact Hc].
Qed.

Lemma trimStart_of_tight s : startsTight s -> trimStart s = s.
Proof. destruct s as [|c s]; cbn; [reflexivity|]. intros ->. reflexivity. Qed.

(** [trim] cuts white space off both ends, and only there. *)
Lemma trim_split s :
  exists p q,
    s = p ++ trim s ++ q
    /\ forallb isWhiteSpace p = true /\ forallb isWhiteSpace q = true
    /\ startsTight (trim s) /\ startsTight (rev (trim s)).
Proof.
  unfold trim, trimEnd.
  destruct (trimStart_split s) as (p & Hp & Hpw).
  destruct (trimStart_split (rev (trimStart s))) as (q & Hq & Hqw).
  pose proof (trimStart_tight s) as Hu.
  pose proof (trimStart_tight (rev (trimStart s))) as Hv.
  set (u := trimStart s) in *. set (v := trimStart (rev u)) in *.
  assert (Hu' : u = rev v ++ rev q).
  { rewrite <- rev_app_distr, <- Hq, rev_involutive. reflexivity. }
  exists p, (rev q). split_and!.
  - rewrite <- Hu'. exact Hp.
  - exact Hpw.
  - rewrite forallb_forall in Hqw |- *. intros x Hx. apply Hqw, in_rev, Hx.
  - rewrite Hu' in Hu. destruct (rev v); [exact I | exact Hu].
  - rewrite rev_involutive. exact Hv.
Qed.

Lemma trim_of_tight s : startsTight s -> startsTight (rev s) -> trim s = s.
Proof.
  intros Hs Hr. unfold trim, trimEnd.
  rewrite (trimStart_of_tight s Hs), (trimStart_of_tight _ Hr).
  apply rev_involutive.
Qed.

Lemma replaceRuns_snoc inRun s c :
  isWhiteSpace c = false ->
  Utils.replaceRuns inRun (s ++ [c]) = Utils.replaceRuns inRun s ++ [c].
Proof.
  intros Hc. revert inRun. induction s as [|d s IH]; intros inRun; cbn.
  - rewrite Hc. reflexivity.
  - destruct (isWhiteSpace d), inRun; cbn; rewrite IH; reflexivity.
Qed.

Lemma replaceRuns_length inRun s :
  (length (Utils.replaceRuns inRun s) <= length s)%nat.
Proof.
  revert inRun. induction s as [|c s IH]; intros inRun; cbn; [lia|].
  destruct (isWhiteSpace c), inRun; cbn;
    try (specialize (IH true); lia); specialize (IH false); lia.
Qed.

Lemma replaceRuns_singleSpaced inRun s :
  singleSpaced inRun (Utils.replaceRuns inRun s) = true.
Proof.
  revert inRun. induction s as [|c s IH]; intros inRun; cbn; [reflexivity|].
  destruct (isWhiteSpace c) eqn:Hc.
  - destruct inRun; [apply IH|]. cbn. rewrite IH. reflexivity.
  - cbn. rewrite Hc. apply IH.
Qed.

Lemma replaceRuns_of_singleSpaced inRun s :
  singleSpaced inRun s = true -> Utils.replaceRuns inRun s = s.
Proof.
  revert inRun. induction s as [|c s IH]; intros inRun; cbn; [reflexivity|].
  destruct (isWhiteSpace c) eqn:Hc.
  - rewrite !andb_true_iff, negb_true_iff. intros [[-> Hsp] Hs].
    apply N.eqb_eq in Hsp. subst c. rewrite (IH true Hs). reflexivity.
  - intros Hs. rewrite (IH false Hs). reflexivity.
Qed.

Lemma replaceRuns_tight s :
  startsTight s -> startsTight (rev s) ->
  startsTight (Utils.replaceRuns false s)
  /\ startsTight (rev (Utils.replaceRuns false s)).
Proof.
  intros Hs Hr. split.
  - destruct s as [|c s]; [exact I|]. cbn in Hs |- *. rewrite Hs. exact Hs.
  - destruct s as [|c s] using rev_ind; [exact I|].
    rewrite rev_app_distr in Hr. cbn in Hr.
    rewrite (replaceRuns_snoc _ _ _ Hr), rev_app_distr. exact Hr.
Qed.

(** X26. [sanitizeString] gives a string with no white space at either end
    in which every white-space character is a single space between two
    other characters; applying it again changes nothing; the result is
    never longer than the input, and it is empty exactly when the input is
    blank. *)
Theorem sanitizeString_normal str :
  let r := Utils.sanitizeString str in
  trim r = r
  /\ singleSpaced false r = true
  /\ Utils.sanitizeString r = r
  /\ (length r <= length str)%nat
  /\ (r = [] <-> isBlank str = true).
Proof.
  cbv zeta. unfold Utils.sanitizeString.
  destruct (trim_split str) as (p & q & Hstr & _ & _ & Hs & Hr).
  destruct (replaceRuns_tight (trim str) Hs Hr) as [Hs' Hr'].
  pose proof (replaceRuns_singleSpaced false (trim str)) as Hsp.
  assert (Htrim : trim (Utils.replaceRuns false (trim str))
                  = Utils.replaceRuns false (trim str))
    by (apply trim_of_tight; assumption).
  split_and!.
  - exact Htrim.
  - exact Hsp.
  - rewrite Htrim. apply replaceRuns_of_singleSpaced, Hsp.
  - etransitivity; [apply replaceRuns_length|].
    rewrite Hstr at 2. rewrite !length_app. lia.
  - unfold isBlank. rewrite Nat.eqb_eq. split.
    + destruct (trim str) as [|c t]; [reflexivity|].
      cbn in Hs |- *. rewrite Hs. discriminate.
    + intros Hl. destruct (trim str); [reflexivity | discriminate Hl].
Qed.
